(** * christmas-mcp-mariadb: the tool handlers of [src/lib/mcp.js]

    A shallow embedding of the MCP server created by [createMCPServer]
    (version 1.2.0, the pooled one): the retrying executor
    [executeWithRetry], the six tool handlers, the start-up diagnostic and
    the termination hook [cleanup]; and, next to it, the configuration
    merge of [src/bin/index.js] and [executeQuery] of the line-oriented
    front-end.

    The handlers are [async] functions that talk to a connection pool,
    write to [console.error] and wait with [setTimeout].  Here they are
    functions in a small state-and-exception monad over a trace of those
    effects, so that "no database call was made" is a statement about the
    trace. *)

From Stdlib Require Import String Ascii List ZArith Bool Arith Lia DecimalString.
Import ListNotations.
Set Warnings "-register-all".
Local Open Scope string_scope.
Local Open Scope nat_scope.
Local Open Scope list_scope.

(** ** Strings

    SQL text is modelled as a [string] of 7-bit characters.  On such text
    [String.prototype.trim] removes tab, line feed, vertical tab, form
    feed, carriage return and space from both ends, and
    [String.prototype.toUpperCase] maps [a]..[z] to [A]..[Z] and leaves
    every other character alone.

    Outside that range the built-ins do more: [trim] also removes U+00A0,
    U+FEFF, the line and paragraph separators and the space separators,
    and [toUpperCase] also maps characters such as U+017F and U+0131 to
    ASCII letters.  The functions below do not, so they stand for the
    built-ins on 7-bit text only, which [is_7bit] recognizes.  What the
    functions below see as white space or as a keyword the built-ins see
    as well; a theorem that relies on the converse, on the model NOT
    seeing white space or a keyword, has [is_7bit] among its hypotheses. *)
Module JsString.

(** Every character of [s] is below U+0080. *)
Definition is_7bit (s : string) : bool :=
  forallb (fun c => nat_of_ascii c <? 128) (list_ascii_of_string s).

Definition isWhiteSpace (c : ascii) : bool :=
  let n := nat_of_ascii c in
  ((9 <=? n) && (n <=? 13)) || (n =? 32).

Fixpoint trimStart (s : string) : string :=
  match s with
  | EmptyString => EmptyString
  | String c s' => if isWhiteSpace c then trimStart s' else s
  end.

Fixpoint trimEnd (s : string) : string :=
  match s with
  | EmptyString => EmptyString
  | String c s' =>
      match trimEnd s' with
      | EmptyString => if isWhiteSpace c then EmptyString else String c EmptyString
      | t => String c t
      end
  end.

Definition trim (s : string) : string := trimEnd (trimStart s).

Definition toUpperChar (c : ascii) : ascii :=
  let n := nat_of_ascii c in
  if (97 <=? n) && (n <=? 122) then ascii_of_nat (n - 32) else c.

Fixpoint toUpperCase (s : string) : string :=
  match s with
  | EmptyString => EmptyString
  | String c s' => String (toUpperChar c) (toUpperCase s')
  end.

(** [s.startsWith(searchString)] *)
Fixpoint startsWith (s searchString : string) {struct searchString} : bool :=
  match searchString with
  | EmptyString => true
  | String c p =>
      match s with
      | EmptyString => false
      | String d s' => Ascii.eqb d c && startsWith s' p
      end
  end.

End JsString.
Import JsString.

(** ** JavaScript values and objects

    Numbers that occur here are counts, identifiers and type codes: they
    are integers.  An object is the list of its own properties in
    insertion order, which is the order [JSON.stringify] prints them in. *)
Inductive JsValue : Type :=
| VUndefined
| VNull
| VBool (b : bool)
| VNumber (n : Z)
| VString (s : string)
| VArray (items : list JsValue)
| VObject (props : list (string * JsValue)).

Definition JsObject : Type := list (string * JsValue).

(** [obj.key] on an own property; [None] when the object has no such key. *)
Fixpoint get_prop (obj : JsObject) (key : string) : option JsValue :=
  match obj with
  | [] => None
  | (k, v) :: rest => if String.eqb k key then Some v else get_prop rest key
  end.

(** [obj.key = v]: overwrite in place, or add the key at the end. *)
Fixpoint set_prop (obj : JsObject) (key : string) (v : JsValue) : JsObject :=
  match obj with
  | [] => [(key, v)]
  | (k, v0) :: rest =>
      if String.eqb k key then (k, v) :: rest else (k, v0) :: set_prop rest key v
  end.

Definition of_option_number (o : option Z) : JsValue :=
  match o with
  | Some n => VNumber n
  | None => VUndefined
  end.

(** ** The driver boundary *)

(** An [Error] as the handlers read it: [error.message] and [error.code]. *)
Record JsError : Type := mkError {
  message : string;
  code : option string
}.

(** [new Error(msg)] carries no [code]. *)
Definition new_Error (msg : string) : JsError := mkError msg None.

(** Field metadata of a result set, as far as the handlers read it. *)
Module Field.
Record t : Type := mk {
  name : string;
  type : option Z;
  length : option Z
}.
End Field.

(** The header the driver returns for a statement without a result set.
    Each property may be missing ([undefined]). *)
Record ResultSetHeader : Type := mkHeader {
  affectedRows : option Z;
  insertId : option Z;
  changedRows : option Z;
  warningCount : option Z
}.

(** First component of what [pool.execute] resolves to: an array of rows or
    a header object. *)
Inductive DriverResult : Type :=
| RowsResult (rows : list JsValue)
| HeaderResult (h : ResultSetHeader).

Definition Fields : Type := option (list Field.t).

Inductive ExecuteReply : Type :=
| Resolved (result : DriverResult) (fields : Fields)
| Rejected (error : JsError).

(** What a handler leaves behind, in the order it happened. *)
Inductive LogLine : Type :=
| AttemptFailed (attempt : nat) (msg : string)
| PoolClosed
| PoolCloseError (msg : string).

Inductive Event : Type :=
| PoolExecute (sql : string) (params : list JsValue)
| PoolEnd
| ConsoleError (line : LogLine)
| SetTimeout (ms : Z).

Definition World : Type := list Event.

(** The pool is an external collaborator.  Its answers may depend on
    everything that happened before the call. *)
Record Pool : Type := mkPool {
  execute : World -> string -> list JsValue -> ExecuteReply;
  pool_end : World -> option JsError
}.

(** The calls the driver received, oldest first. *)
Fixpoint calls (w : World) : list (string * list JsValue) :=
  match w with
  | [] => []
  | PoolExecute sql params :: rest => (sql, params) :: calls rest
  | _ :: rest => calls rest
  end.

Fixpoint waits (w : World) : list Z :=
  match w with
  | [] => []
  | SetTimeout ms :: rest => ms :: waits rest
  | _ :: rest => waits rest
  end.

Fixpoint pool_ends (w : World) : nat :=
  match w with
  | [] => 0
  | PoolEnd :: rest => S (pool_ends rest)
  | _ :: rest => pool_ends rest
  end.

(** ** Asynchronous code as state passing with exceptions

    A side effect that happened before a [throw] stays in the trace. *)
Inductive Completion (A : Type) : Type :=
| Returned (a : A)
| Thrown (e : JsError).
Arguments Returned {A} a.
Arguments Thrown {A} e.

Definition Async (A : Type) : Type := World -> Completion A * World.

Definition ret {A} (a : A) : Async A := fun w => (Returned a, w).

Definition throw {A} (e : JsError) : Async A := fun w => (Thrown e, w).

Definition bind {A B} (m : Async A) (k : A -> Async B) : Async B :=
  fun w =>
    match m w with
    | (Returned a, w') => k a w'
    | (Thrown e, w') => (Thrown e, w')
    end.

Definition tryCatch {A} (body : Async A) (handler : JsError -> Async A) : Async A :=
  fun w =>
    match body w with
    | (Returned a, w') => (Returned a, w')
    | (Thrown e, w') => handler e w'
    end.

Definition emit (e : Event) : Async unit := fun w => (Returned tt, w ++ [e]).

Notation "x <- m ;; k" := (bind m (fun x => k))
  (at level 61, m at next level, right associativity).
Notation "m ;; k" := (bind m (fun _ => k))
  (at level 61, right associativity).

Definition console_error (line : LogLine) : Async unit := emit (ConsoleError line).

(** [await new Promise(resolve => setTimeout(resolve, ms))] *)
Definition setTimeout (ms : Z) : Async unit := emit (SetTimeout ms).

(** ** What a handler hands back to the protocol layer

    Every handler returns [{content: [{type: 'text', text:
    JSON.stringify(payload, null, 2)}]}].  The block keeps the payload
    object itself. *)
Inductive ContentBlock : Type :=
| TextContent (payload : JsObject).

Record ToolResult : Type := mkToolResult {
  content : list ContentBlock
}.

Definition json_text (payload : JsObject) : ToolResult :=
  mkToolResult [TextContent payload].

(** [error.code || 'SQL_ERROR']: a missing or empty code is falsy. *)
Definition code_or_default (e : JsError) : string :=
  match code e with
  | Some c => if String.eqb c EmptyString then "SQL_ERROR" else c
  | None => "SQL_ERROR"
  end.

(** The [catch] branch of [query_database] and of [execute_sql]. *)
Definition failure_envelope (e : JsError) (sql : string) : JsObject :=
  [ ("error", VBool true);
    ("message", VString (message e));
    ("code", VString (code_or_default e));
    ("sql", VString sql) ].

(** The [catch] branch of [describe_table]. *)
Definition describe_failure_envelope (e : JsError) (table : string) : JsObject :=
  [ ("error", VBool true);
    ("message", VString (message e));
    ("code", VString (code_or_default e));
    ("table", VString table) ].

(** The object [execute_sql] returns when it asks for [confirm]. *)
Definition confirmation_envelope (sql : string) : JsObject :=
  [ ("error", VBool true);
    ("message",
      VString "This SQL statement is potentially dangerous. Set confirm=true to execute.");
    ("sql", VString sql);
    ("requiresConfirmation", VBool true) ].

(** [field => ({name: field.name, type: field.type, length: field.length})] *)
Definition field_summary (f : Field.t) : JsValue :=
  VObject [ ("name", VString (Field.name f));
            ("type", of_option_number (Field.type f));
            ("length", of_option_number (Field.length f)) ].

Definition header_value (h : ResultSetHeader) : JsValue :=
  VObject [ ("affectedRows", of_option_number (affectedRows h));
            ("insertId", of_option_number (insertId h));
            ("changedRows", of_option_number (changedRows h));
            ("warningCount", of_option_number (warningCount h)) ].

Definition result_value (r : DriverResult) : JsValue :=
  match r with
  | RowsResult rows => VArray rows
  | HeaderResult h => header_value h
  end.

(** Property reads on the first component of the driver's answer; an array
    has none of these properties. *)
Definition read_header (proj : ResultSetHeader -> option Z) (r : DriverResult) : option Z :=
  match r with
  | RowsResult _ => None
  | HeaderResult h => proj h
  end.

(** Truthiness of a number that may be [undefined]. *)
Definition truthy (o : option Z) : bool :=
  match o with
  | Some n => negb (n =? 0)%Z
  | None => false
  end.

(** [x > 0] for a number that may be [undefined]. *)
Definition gt_zero (o : option Z) : bool :=
  match o with
  | Some n => (0 <? n)%Z
  | None => false
  end.

(** [Array.isArray(rows) ? rows.length : 0] *)
Definition row_count (r : DriverResult) : Z :=
  match r with
  | RowsResult rows => Z.of_nat (List.length rows)
  | HeaderResult _ => 0%Z
  end.

(** The success payload of [query_database]. *)
Definition query_envelope (rows : DriverResult) (fields : Fields) : JsObject :=
  [ ("success", VBool true);
    ("data", result_value rows);
    ("rowCount", VNumber (row_count rows));
    ("fields", VArray (match fields with
                       | Some fs => map field_summary fs
                       | None => []
                       end)) ].

(** [responseData] of [execute_sql], built the way the handler builds it:
    four fixed properties, then the conditional ones in source order. *)
Definition responseData (sql : string) (result : DriverResult) (fields : Fields) : JsObject :=
  let rd :=
    [ ("success", VBool true);
      ("sql", VString sql);
      ("affectedRows",
        if truthy (read_header affectedRows result)
        then of_option_number (read_header affectedRows result)
        else VNumber 0);
      ("fieldCount",
        VNumber (match fields with
                 | Some fs => Z.of_nat (List.length fs)
                 | None => 0%Z
                 end)) ] in
  let rd :=
    if truthy (read_header insertId result)
    then set_prop rd "insertId" (of_option_number (read_header insertId result))
    else rd in
  let rd :=
    match read_header changedRows result with
    | Some n => set_prop rd "changedRows" (VNumber n)
    | None => rd
    end in
  let rd :=
    if truthy (read_header warningCount result) && gt_zero (read_header warningCount result)
    then set_prop rd "warningCount" (of_option_number (read_header warningCount result))
    else rd in
  let rd :=
    match result with
    | RowsResult rows =>
        if 0 <? List.length rows
        then set_prop (set_prop rd "data" (VArray rows))
                      "rowCount" (VNumber (Z.of_nat (List.length rows)))
        else rd
    | HeaderResult _ => rd
    end in
  match fields with
  | Some fs =>
      if 0 <? List.length fs
      then set_prop rd "fields" (VArray (map field_summary fs))
      else rd
  | None => rd
  end.

(** The success payload of [describe_table]; [rows.length] of a header
    object is [undefined]. *)
Definition describe_envelope (table : string) (rows : DriverResult) : JsObject :=
  [ ("success", VBool true);
    ("table", VString table);
    ("columns", result_value rows);
    ("columnCount", match rows with
                    | RowsResult l => VNumber (Z.of_nat (List.length l))
                    | HeaderResult _ => VUndefined
                    end) ].

(** The two classifications [execute_sql] computes from the trimmed,
    upper-cased text. *)
Definition isDangerous (trimmedSql : string) : bool :=
  startsWith trimmedSql "DELETE" ||
  startsWith trimmedSql "UPDATE" ||
  startsWith trimmedSql "DROP" ||
  startsWith trimmedSql "TRUNCATE".

Definition isStructural (trimmedSql : string) : bool :=
  startsWith trimmedSql "CREATE" ||
  startsWith trimmedSql "ALTER" ||
  startsWith trimmedSql "INSERT".

(** ** The server: everything that closes over [pool] *)
Section createMCPServer.

Variable pool : Pool.

(** [await pool.execute(sql, params)] *)
Definition pool_execute (sql : string) (params : list JsValue)
  : Async (DriverResult * Fields) :=
  fun w =>
    match execute pool w sql params with
    | Resolved result fields => (Returned (result, fields), w ++ [PoolExecute sql params])
    | Rejected error => (Thrown error, w ++ [PoolExecute sql params])
    end.

(** The [for] loop of [executeWithRetry].  [attempt] is the loop variable;
    [remaining] is [retries + 1 - attempt], the number of iterations for
    which [attempt <= retries] still holds.  When none is left the loop
    ends and the function returns [undefined] ([None]). *)
Fixpoint retry_loop (sql : string) (params : list JsValue) (retries : nat)
    (remaining attempt : nat) : Async (option (DriverResult * Fields)) :=
  match remaining with
  | 0 => ret None
  | S remaining' =>
      tryCatch
        (rf <- pool_execute sql params ;; ret (Some rf))
        (fun error =>
           console_error (AttemptFailed attempt (message error)) ;;
           if attempt =? retries
           then throw error
           else setTimeout 1000 ;;
                retry_loop sql params retries remaining' (S attempt))
  end.

Definition executeWithRetry (sql : string) (params : list JsValue) (retries : nat)
  : Async (option (DriverResult * Fields)) :=
  retry_loop sql params retries retries 1.

(** [params = []] and [retries = 2] are the defaults every handler uses. *)
Definition default_retries : nat := 2.

(** [const [a, b] = await executeWithRetry(...)]: destructuring
    [undefined] throws a [TypeError]. *)
Definition destructure (r : option (DriverResult * Fields))
  : Async (DriverResult * Fields) :=
  match r with
  | Some rf => ret rf
  | None => throw (new_Error "undefined is not iterable")
  end.

Definition query_database (sql : string) : Async ToolResult :=
  tryCatch
    (let trimmedSql := toUpperCase (trim sql) in
     (if negb (startsWith trimmedSql "SELECT") &&
         negb (startsWith trimmedSql "SHOW") &&
         negb (startsWith trimmedSql "DESCRIBE") &&
         negb (startsWith trimmedSql "EXPLAIN")
      then throw (new_Error
             "Only SELECT, SHOW, DESCRIBE, and EXPLAIN queries are allowed with this tool")
      else ret tt) ;;
     r <- executeWithRetry sql [] default_retries ;;
     rf <- destructure r ;;
     ret (json_text (query_envelope (fst rf) (snd rf))))
    (fun error => ret (json_text (failure_envelope error sql))).

Definition execute_sql (sql : string) (confirm : bool) : Async ToolResult :=
  tryCatch
    (let trimmedSql := toUpperCase (trim sql) in
     if isDangerous trimmedSql && negb confirm
     then ret (json_text (confirmation_envelope sql))
     else
       r <- executeWithRetry sql [] default_retries ;;
       rf <- destructure r ;;
       ret (json_text (responseData sql (fst rf) (snd rf))))
    (fun error => ret (json_text (failure_envelope error sql))).

Definition describe_table (table : string) : Async ToolResult :=
  tryCatch
    (r <- executeWithRetry "DESCRIBE ??" [VString table] default_retries ;;
     rf <- destructure r ;;
     ret (json_text (describe_envelope table (fst rf))))
    (fun error => ret (json_text (describe_failure_envelope error table))).

End createMCPServer.

(** [await pool.end()] *)
Definition pool_end_call (pool : Pool) : Async unit :=
  fun w =>
    match pool_end pool w with
    | None => (Returned tt, w ++ [PoolEnd])
    | Some error => (Thrown error, w ++ [PoolEnd])
    end.

(** The termination hook registered for SIGINT and SIGTERM.  [pool] is the
    variable of the enclosing function: [None] stands for [undefined]. *)
Definition cleanup (pool : option Pool) : Async unit :=
  match pool with
  | Some p =>
      tryCatch
        (pool_end_call p ;; console_error PoolClosed)
        (fun error => console_error (PoolCloseError (message error)))
  | None => ret tt
  end.

(** ** What a run of the executor looks like

    A description of [executeWithRetry] attempt by attempt, to compare the
    loop with.  [RetryRun pool sql params retries attempt w c w'] reads:
    starting attempt number [attempt] in trace [w], the executor completes
    with [c] and leaves the trace [w'].
    - An attempt the pool accepts ends the run at once with that answer;
      nothing is sent, logged or waited for after it.
    - Attempt number [retries], when rejected, is logged and ends the run
      with that error.
    - An earlier attempt, when rejected with whatever error, is logged and
      followed by a wait of 1000 ms and by the next attempt. *)
Inductive RetryRun (pool : Pool) (sql : string) (params : list JsValue) (retries : nat)
  : nat -> World -> Completion (option (DriverResult * Fields)) -> World -> Prop :=
| run_accepted (attempt : nat) (w : World) (result : DriverResult) (fields : Fields) :
    execute pool w sql params = Resolved result fields ->
    RetryRun pool sql params retries attempt w
      (Returned (Some (result, fields)))
      (w ++ [PoolExecute sql params])
| run_rejected_last (w : World) (error : JsError) :
    execute pool w sql params = Rejected error ->
    RetryRun pool sql params retries retries w
      (Thrown error)
      (w ++ [PoolExecute sql params;
             ConsoleError (AttemptFailed retries (message error))])
| run_rejected_retry (attempt : nat) (w w' : World) (error : JsError)
    (c : Completion (option (DriverResult * Fields))) :
    execute pool w sql params = Rejected error ->
    attempt < retries ->
    RetryRun pool sql params retries (S attempt)
      (w ++ [PoolExecute sql params;
             ConsoleError (AttemptFailed attempt (message error));
             SetTimeout 1000])
      c w' ->
    RetryRun pool sql params retries attempt w c w'.

(** ** Observing a run *)

(** [cleanup] run twice in a row. *)
Definition cleanup_twice (pool : option Pool) : Async unit :=
  cleanup pool ;; cleanup pool.

(** The events of [w'] that came after [w]. *)
Definition since (w w' : World) : World := skipn (List.length w) w'.

(** ** Test doubles for the pool *)

(** A pool that resolves every statement with the same answer. *)
Definition resolving_pool (result : DriverResult) (fields : Fields) : Pool :=
  mkPool (fun _ _ _ => Resolved result fields) (fun _ => None).

(** A pool that rejects every statement with the same error. *)
Definition rejecting_pool (error : JsError) : Pool :=
  mkPool (fun _ _ _ => Rejected error) (fun _ => None).

(** A pool that rejects the first statement it sees and resolves the rest. *)
Definition flaky_pool (error : JsError) (result : DriverResult) (fields : Fields) : Pool :=
  mkPool (fun w _ _ => match calls w with
                       | [] => Rejected error
                       | _ :: _ => Resolved result fields
                       end)
         (fun _ => None).

Definition parse_error : JsError :=
  mkError "You have an error in your SQL syntax" (Some "ER_PARSE_ERROR").

Definition connection_lost : JsError :=
  mkError "Connection lost: The server closed the connection." (Some "PROTOCOL_CONNECTION_LOST").

Definition one_row_changed : DriverResult :=
  HeaderResult (mkHeader (Some 1%Z) (Some 0%Z) None None).

(** The keyword lists of the specification's classifier. *)
Definition read_only_keywords : list string := ["SELECT"; "SHOW"; "DESCRIBE"; "EXPLAIN"].
Definition structural_keywords : list string := ["CREATE"; "ALTER"; "INSERT"].
Definition dangerous_keywords : list string := ["DELETE"; "UPDATE"; "DROP"; "TRUNCATE"].


(** The trimmed, upper-cased text begins with one of [keywords]. *)
Definition begins_with_any (keywords : list string) (sql : string) : bool :=
  existsb (startsWith (toUpperCase (trim sql))) keywords.

(** ** The tools that take no SQL from the caller *)

(** [config] as the JSDoc of [createMCPServer] types it; [database] is
    optional ([None] stands for [null] or [undefined]). *)
Record Config : Type := mkConfig {
  host : string;
  port : Z;
  user : string;
  password : string;
  database : option string;
  charset : string
}.

Definition double_quote : string := String "034"%char EmptyString.

Definition newline : string := String "010"%char EmptyString.

(** A number inside a template literal; the numbers here are integers, and
    of less than 22 digits (from 1e21 on the source prints an exponent). *)
Definition number_to_string (n : Z) : string :=
  DecimalString.NilZero.string_of_int (Z.to_int n).

Definition TypeError (msg : string) : JsError := new_Error msg.

(** [Object.values(v)]; the properties of an object are listed in the
    order the object enumerates them. *)
Definition Object_values (v : JsValue) : Async (list JsValue) :=
  match v with
  | VUndefined | VNull => throw (TypeError "Cannot convert undefined or null to object")
  | VBool _ | VNumber _ => ret []
  | VString s => ret (map (fun c => VString (String c EmptyString)) (list_ascii_of_string s))
  | VArray items => ret items
  | VObject props => ret (map snd props)
  end.

(** [v.key] for a key that no built-in prototype defines; the handlers read
    [Database], [version], [Value] and [current_database]. *)
Definition member (v : JsValue) (key : string) : Async JsValue :=
  match v with
  | VUndefined =>
      throw (TypeError ("Cannot read properties of undefined (reading '" ++ key ++ "')")%string)
  | VNull =>
      throw (TypeError ("Cannot read properties of null (reading '" ++ key ++ "')")%string)
  | VObject props =>
      ret (match get_prop props key with
           | Some x => x
           | None => VUndefined
           end)
  | VBool _ | VNumber _ | VString _ | VArray _ => ret VUndefined
  end.

(** [items.map(f)] with a callback that may throw. *)
Fixpoint array_map (f : JsValue -> Async JsValue) (items : list JsValue)
  : Async (list JsValue) :=
  match items with
  | [] => ret []
  | x :: rest =>
      y <- f x ;;
      ys <- array_map f rest ;;
      ret (y :: ys)
  end.

(** [rows.map(f)]: a header object has no [map]. *)
Definition rows_map (rows : DriverResult) (f : JsValue -> Async JsValue)
  : Async (list JsValue) :=
  match rows with
  | RowsResult items => array_map f items
  | HeaderResult _ => throw (TypeError "rows.map is not a function")
  end.

(** [rows.length] *)
Definition rows_length (rows : DriverResult) : JsValue :=
  match rows with
  | RowsResult items => VNumber (Z.of_nat (List.length items))
  | HeaderResult _ => VUndefined
  end.

(** [rows[0]] *)
Definition first_row (rows : DriverResult) : JsValue :=
  match rows with
  | RowsResult items => hd VUndefined items
  | HeaderResult _ => VUndefined
  end.

(** The [catch] branch of [list_tables], [show_databases] and
    [server_info]. *)
Definition plain_failure_envelope (e : JsError) : JsObject :=
  [ ("error", VBool true);
    ("message", VString (message e));
    ("code", VString (code_or_default e)) ].

Definition version_sql : string := "SELECT VERSION() as version".

Definition uptime_sql : string :=
  ("SHOW STATUS LIKE " ++ double_quote ++ "Uptime" ++ double_quote)%string.

Definition current_database_sql : string := "SELECT DATABASE() as current_database".

Section fixedTools.

Variable pool : Pool.
Variable config : Config.

Definition list_tables : Async ToolResult :=
  tryCatch
    (r <- executeWithRetry pool "SHOW TABLES" [] default_retries ;;
     rf <- destructure r ;;
     tables <- rows_map (fst rf)
                 (fun row => values <- Object_values row ;; ret (hd VUndefined values)) ;;
     ret (json_text [ ("success", VBool true);
                      ("tables", VArray tables);
                      ("count", rows_length (fst rf)) ]))
    (fun error => ret (json_text (plain_failure_envelope error))).

Definition show_databases : Async ToolResult :=
  tryCatch
    (r <- executeWithRetry pool "SHOW DATABASES" [] default_retries ;;
     rf <- destructure r ;;
     databases <- rows_map (fst rf) (fun row => member row "Database") ;;
     ret (json_text [ ("success", VBool true);
                      ("databases", VArray databases);
                      ("count", rows_length (fst rf)) ]))
    (fun error => ret (json_text (plain_failure_envelope error))).

Definition server_info : Async ToolResult :=
  tryCatch
    (r1 <- executeWithRetry pool version_sql [] default_retries ;;
     versionRows <- destructure r1 ;;
     r2 <- executeWithRetry pool uptime_sql [] default_retries ;;
     statusRows <- destructure r2 ;;
     r3 <- executeWithRetry pool current_database_sql [] default_retries ;;
     dbRows <- destructure r3 ;;
     version <- member (first_row (fst versionRows)) "version" ;;
     uptime <- member (first_row (fst statusRows)) "Value" ;;
     currentDatabase <- member (first_row (fst dbRows)) "current_database" ;;
     ret (json_text
            [ ("success", VBool true);
              ("server", VObject [ ("version", version);
                                   ("uptime", uptime);
                                   ("currentDatabase", currentDatabase);
                                   ("host", VString (host config));
                                   ("port", VNumber (port config));
                                   ("user", VString (user config)) ]) ]))
    (fun error => ret (json_text (plain_failure_envelope error))).

End fixedTools.

(** ** Start-up diagnostics *)

(** A string in a condition: only the empty string is falsy. *)
Definition nonempty (s : string) : bool := negb (String.eqb s EmptyString).

(** [config.database] in a condition: missing or empty is falsy. *)
Definition database_set (config : Config) : bool :=
  match database config with
  | Some d => nonempty d
  | None => false
  end.

(** [errorDetails] of the [catch] around pool creation, for the message of
    the error that was caught. *)
Definition errorDetails (config : Config) (error_message : string) : string :=
  String.concat newline
    [ ("Database connection failed: " ++ error_message)%string;
      EmptyString;
      "Troubleshooting:";
      ("- Check if MariaDB/MySQL is running on " ++ host config ++ ":"
         ++ number_to_string (port config))%string;
      ("- Verify username '" ++ user config
         ++ "' exists and has proper permissions")%string;
      if nonempty (password config)
      then "- Verify the password is correct"
      else "- Consider setting a password in your configuration";
      if database_set config
      then ("- Check if database '"
              ++ match database config with Some d => d | None => EmptyString end
              ++ "' exists")%string
      else "- Consider specifying a database name";
      "- Ensure the database server allows connections from your IP";
      EmptyString;
      "Current configuration:";
      ("  Host: " ++ host config)%string;
      ("  Port: " ++ number_to_string (port config))%string;
      ("  User: " ++ user config)%string;
      ("  Password: " ++ if nonempty (password config) then "[SET]" else "[NOT SET]")%string;
      ("  Database: " ++ if database_set config
                         then match database config with Some d => d | None => EmptyString end
                         else "[NOT SET]")%string ].

Definition with_password (config : Config) (pw : string) : Config :=
  mkConfig (host config) (port config) (user config) pw (database config) (charset config).

(** ** Loading the configuration ([src/bin/index.js]) *)

Definition DEFAULT_CONFIG : JsObject :=
  [ ("host", VString "localhost");
    ("port", VNumber 3306);
    ("user", VString "root");
    ("password", VString EmptyString);
    ("database", VNull);
    ("charset", VString "utf8mb4") ].

(** [{ ...base, ...extra }]: the properties of [extra] are assigned onto a
    copy of [base] in order. *)
Definition spread (base extra : JsObject) : JsObject :=
  fold_left (fun acc kv => set_prop acc (fst kv) (snd kv)) extra base.

(** [config] after [mcp.json] was read and parsed to the object
    [userConfig]. *)
Definition merged_config (userConfig : JsObject) : JsObject :=
  spread DEFAULT_CONFIG userConfig.

(** ** The line-oriented front-end ([executeQuery]) *)
Module LineFrontEnd.

(** What [executeQuery] reads of a driver error. *)
Record DriverFailure : Type := mkFailure {
  failure_message : string;
  sqlState : option string;
  errno : option Z
}.

(** Field metadata as this front-end reads it. *)
Record Column : Type := mkColumn {
  column_name : string;
  column_type : option Z;
  column_table : option string
}.

Inductive QueryReply : Type :=
| QueryResolved (results : DriverResult) (fields : option (list Column))
| QueryRejected (error : DriverFailure).

(** The single connection of this front-end; [connection.execute(sql)] is
    recorded in the trace as a driver call without parameters. *)
Record Connection : Type := mkConnection {
  connection_execute : World -> string -> QueryReply
}.

Definition of_option_string (o : option string) : JsValue :=
  match o with
  | Some s => VString s
  | None => VUndefined
  end.

Definition column_summary (c : Column) : JsValue :=
  VObject [ ("name", VString (column_name c));
            ("type", of_option_number (column_type c));
            ("table", of_option_string (column_table c)) ].

(** [Array.isArray(results) ? results.length : results.affectedRows || 0] *)
Definition rowCount (results : DriverResult) : Z :=
  match results with
  | RowsResult rows => Z.of_nat (List.length rows)
  | HeaderResult h =>
      match affectedRows h with
      | Some n => if (n =? 0)%Z then 0%Z else n
      | None => 0%Z
      end
  end.

(** [connection] is the module-level variable: [None] until
    [connectToDatabase] has run.  The function catches everything, so it
    returns an object and a trace. *)
Definition executeQuery (connection : option Connection) (query : string) (w : World)
  : JsObject * World :=
  match connection with
  | None => ([ ("error", VString "Database connection not established") ], w)
  | Some conn =>
      let trimmedQuery := trim query in
      if String.eqb trimmedQuery EmptyString
      then ([ ("error", VString "Empty query provided") ], w)
      else
        match connection_execute conn w trimmedQuery with
        | QueryResolved results fields =>
            ([ ("success", VBool true);
               ("results", result_value results);
               ("fields", match fields with
                          | Some fs => VArray (map column_summary fs)
                          | None => VNull
                          end);
               ("rowCount", VNumber (rowCount results)) ],
             w ++ [PoolExecute trimmedQuery []])
        | QueryRejected error =>
            ([ ("error", VString ("Query execution failed: " ++ failure_message error)%string);
               ("sqlState", of_option_string (sqlState error));
               ("errno", of_option_number (errno error)) ],
             w ++ [PoolExecute trimmedQuery []])
        end
  end.

End LineFrontEnd.

(** [row.key] for an object [row], [undefined] when the key is missing. *)
Definition lookup_or_undefined (row : JsObject) (key : string) : JsValue :=
  match get_prop row key with
  | Some v => v
  | None => VUndefined
  end.

(** The attempt numbers of the failures [executeWithRetry] logged, oldest
    first. *)
Fixpoint logged_attempts (w : World) : list nat :=
  match w with
  | [] => []
  | ConsoleError (AttemptFailed attempt _) :: rest => attempt :: logged_attempts rest
  | _ :: rest => logged_attempts rest
  end.

(** ** More test doubles *)

(** A pool whose answer depends on the SQL text only. *)
Definition scripted_pool (answer : string -> ExecuteReply) : Pool :=
  mkPool (fun _ sql _ => answer sql) (fun _ => None).

(** A pool that rejects the first statement with one error and every later
    one with another. *)
Definition twice_rejecting_pool (first second : JsError) : Pool :=
  mkPool (fun w _ _ => match calls w with
                       | [] => Rejected first
                       | _ :: _ => Rejected second
                       end)
         (fun _ => None).

Definition server_answers (sql : string) : ExecuteReply :=
  if String.eqb sql version_sql
  then Resolved (RowsResult [VObject [("version", VString "11.4.2-MariaDB")]]) None
  else if String.eqb sql uptime_sql
  then Resolved (RowsResult [VObject [("Variable_name", VString "Uptime");
                                      ("Value", VString "86400")]]) None
  else Resolved (RowsResult [VObject [("current_database", VNull)]]) None.

Definition sample_config : Config :=
  mkConfig "db.internal" 3306 "app" "s3cret" (Some "shop") "utf8mb4".

(** Every character of [s] is white space. *)
Definition all_whitespace (s : string) : bool :=
  forallb isWhiteSpace (list_ascii_of_string s).

(** * Properties *)

(** ** Traces *)

Lemma calls_app (a b : World) : calls (a ++ b) = calls a ++ calls b.
Proof.
  induction a as [|e a IH]; simpl; [reflexivity|].
  destruct e; simpl; rewrite IH; reflexivity.
Qed.

Lemma waits_app (a b : World) : waits (a ++ b) = waits a ++ waits b.
Proof.
  induction a as [|e a IH]; simpl; [reflexivity|].
  destruct e; simpl; rewrite IH; reflexivity.
Qed.

Lemma pool_ends_app (a b : World) : pool_ends (a ++ b) = pool_ends a + pool_ends b.
Proof.
  induction a as [|e a IH]; simpl; [reflexivity|].
  destruct e; simpl; rewrite IH; reflexivity.
Qed.

(** ** Prefixes *)

Lemma startsWith_append (keyword rest : string) :
  startsWith (keyword ++ rest)%string keyword = true.
Proof.
  induction keyword as [|c k IH]; simpl; [reflexivity|].
  rewrite Ascii.eqb_refl, IH. reflexivity.
Qed.

Lemma existsb_startsWith (t keyword : string) (keywords : list string) :
  In keyword keywords -> startsWith t keyword = true ->
  existsb (startsWith t) keywords = true.
Proof.
  intros Hin Hsw. apply existsb_exists. exists keyword. split; assumption.
Qed.

Lemma isDangerous_keywords (t : string) :
  isDangerous t = existsb (startsWith t) dangerous_keywords.
Proof.
  unfold isDangerous, dangerous_keywords. simpl.
  rewrite orb_false_r, !orb_assoc. reflexivity.
Qed.

Lemma isStructural_keywords (t : string) :
  isStructural t = existsb (startsWith t) structural_keywords.
Proof.
  unfold isStructural, structural_keywords. simpl.
  rewrite orb_false_r, !orb_assoc. reflexivity.
Qed.

(** The structural keywords and the dangerous ones differ in their first
    letter, so no text begins with one of each. *)
Lemma isStructural_not_isDangerous (t : string) :
  isStructural t = true -> isDangerous t = false.
Proof.
  unfold isStructural, isDangerous.
  destruct t as [|c t]; simpl; [discriminate|].
  destruct (Ascii.eqb_spec c "C") as [->|]; [reflexivity|].
  destruct (Ascii.eqb_spec c "A") as [->|]; [reflexivity|].
  destruct (Ascii.eqb_spec c "I") as [->|]; [reflexivity|].
  simpl. discriminate.
Qed.

(** ** The retrying executor *)

Section Executor.

Variable pool : Pool.
Variables (sql : string) (params : list JsValue).

(** Whatever the pool answers, the loop only ever sends [(sql, params)],
    it sends it first, and it sends it at most [remaining] times. *)
Lemma retry_loop_events (retries remaining attempt : nat) (w : World) :
  exists evs,
    snd (retry_loop pool sql params retries remaining attempt w) = w ++ evs /\
    calls evs = repeat (sql, params) (List.length (calls evs)) /\
    List.length (calls evs) <= remaining /\
    (remaining <> 0 -> exists evs', evs = PoolExecute sql params :: evs').
Proof.
  revert attempt w.
  induction remaining as [|k IH]; intros attempt w; simpl.
  - exists []. rewrite app_nil_r. repeat split; auto. intros H; contradiction.
  - unfold tryCatch, bind, pool_execute.
    destruct (execute pool w sql params) as [result fields|error]; simpl.
    + exists [PoolExecute sql params]. repeat split; simpl; auto with arith.
      intros _. eexists; reflexivity.
    + unfold console_error, emit, bind. simpl.
      destruct (attempt =? retries); simpl.
      * exists [PoolExecute sql params; ConsoleError (AttemptFailed attempt (message error))].
        rewrite <- app_assoc. repeat split; simpl; auto with arith.
        intros _. eexists; reflexivity.
      * destruct (IH (S attempt)
                     (((w ++ [PoolExecute sql params]) ++
                        [ConsoleError (AttemptFailed attempt (message error))]) ++
                        [SetTimeout 1000]))
          as (evs & Hw & Hc & Hle & _).
        exists (PoolExecute sql params
                  :: ConsoleError (AttemptFailed attempt (message error))
                  :: SetTimeout 1000 :: evs).
        rewrite Hw, <- !app_assoc. simpl.
        repeat split.
        -- f_equal. exact Hc.
        -- lia.
        -- intros _. eexists; reflexivity.
Qed.

Lemma executeWithRetry_events (w : World) :
  exists evs,
    snd (executeWithRetry pool sql params default_retries w)
      = w ++ PoolExecute sql params :: evs /\
    exists n, calls (PoolExecute sql params :: evs) = repeat (sql, params) n /\
              1 <= n <= default_retries.
Proof.
  unfold executeWithRetry.
  destruct (retry_loop_events default_retries default_retries 1 w)
    as (evs & Hw & Hc & Hle & Hfirst).
  destruct Hfirst as (evs' & ->); [discriminate|].
  exists evs'. split; [exact Hw|].
  exists (List.length (calls (PoolExecute sql params :: evs'))).
  split; [exact Hc|]. split; [simpl; lia | exact Hle].
Qed.

End Executor.

(** ** Handlers and the executor *)

(** Past its gate, [query_database] leaves the trace the executor leaves. *)
Lemma query_database_trace (pool : Pool) (sql : string) (w : World) :
  begins_with_any read_only_keywords sql = true ->
  snd (query_database pool sql w) = snd (executeWithRetry pool sql [] default_retries w).
Proof.
  unfold begins_with_any, read_only_keywords. cbn [existsb].
  rewrite orb_false_r. intros H.
  assert (Hgate : negb (startsWith (toUpperCase (trim sql)) "SELECT") &&
                  negb (startsWith (toUpperCase (trim sql)) "SHOW") &&
                  negb (startsWith (toUpperCase (trim sql)) "DESCRIBE") &&
                  negb (startsWith (toUpperCase (trim sql)) "EXPLAIN") = false).
  { destruct (startsWith (toUpperCase (trim sql)) "SELECT"),
             (startsWith (toUpperCase (trim sql)) "SHOW"),
             (startsWith (toUpperCase (trim sql)) "DESCRIBE"),
             (startsWith (toUpperCase (trim sql)) "EXPLAIN");
      try reflexivity; discriminate H. }
  unfold query_database, tryCatch, bind. rewrite Hgate.
  unfold ret at 1.
  destruct (executeWithRetry pool sql [] default_retries w) as [[[rf|]|e] w'];
    reflexivity.
Qed.

(** When the confirmation gate does not fire, [execute_sql] goes to the
    executor; [confirm] is not looked at again. *)
Lemma execute_sql_ungated (pool : Pool) (sql : string) (confirm : bool) (w : World) :
  isDangerous (toUpperCase (trim sql)) && negb confirm = false ->
  execute_sql pool sql confirm w =
    tryCatch
      (r <- executeWithRetry pool sql [] default_retries ;;
       rf <- destructure r ;;
       ret (json_text (responseData sql (fst rf) (snd rf))))
      (fun error => ret (json_text (failure_envelope error sql))) w.
Proof.
  intros H. unfold execute_sql, tryCatch. rewrite H. reflexivity.
Qed.

Lemma execute_sql_ungated_trace (pool : Pool) (sql : string) (confirm : bool) (w : World) :
  isDangerous (toUpperCase (trim sql)) && negb confirm = false ->
  snd (execute_sql pool sql confirm w)
    = snd (executeWithRetry pool sql [] default_retries w).
Proof.
  intros H. rewrite execute_sql_ungated by exact H.
  unfold tryCatch, bind.
  destruct (executeWithRetry pool sql [] default_retries w) as [[[rf|]|e] w'];
    reflexivity.
Qed.

Lemma execute_sql_gated (pool : Pool) (sql : string) (w : World) :
  isDangerous (toUpperCase (trim sql)) = true ->
  execute_sql pool sql false w = (Returned (json_text (confirmation_envelope sql)), w).
Proof.
  intros H. unfold execute_sql, tryCatch. rewrite H. reflexivity.
Qed.

(** ** The confirmation gate of [execute_sql] *)

(** C3. For every SQL text whose trimmed, upper-cased form begins with
    DELETE, UPDATE, DROP or TRUNCATE, [execute_sql] called with
    [confirm = false] returns an envelope that holds
    [requiresConfirmation: true] and the original [sql], and the trace is
    the one it started with: the pool was not called. *)
Theorem execute_sql_dangerous_unconfirmed (pool : Pool) (sql : string) (w : World) :
  begins_with_any dangerous_keywords sql = true ->
  exists payload,
    execute_sql pool sql false w = (Returned (json_text payload), w) /\
    get_prop payload "requiresConfirmation" = Some (VBool true) /\
    get_prop payload "sql" = Some (VString sql) /\
    calls (snd (execute_sql pool sql false w)) = calls w.
Proof.
  unfold begins_with_any. rewrite <- isDangerous_keywords. intros H.
  exists (confirmation_envelope sql).
  rewrite (execute_sql_gated pool sql w H).
  repeat split.
Qed.

Lemma execute_sql_dangerous_unconfirmed_witness :
  exists payload,
    execute_sql (resolving_pool one_row_changed None) "DELETE FROM t" false []
      = (Returned (json_text payload), []) /\
    get_prop payload "requiresConfirmation" = Some (VBool true) /\
    get_prop payload "sql" = Some (VString "DELETE FROM t") /\
    calls (snd (execute_sql (resolving_pool one_row_changed None)
                  "DELETE FROM t" false [])) = calls [].
Proof.
  apply (execute_sql_dangerous_unconfirmed
           (resolving_pool one_row_changed None) "DELETE FROM t" []).
  reflexivity.
Defined.

(** C5, as the specification has it, fails: the envelope that asks for
    confirmation carries [error: true]. *)
Lemma confirmation_envelope_error_flag :
  exists payload,
    execute_sql (resolving_pool one_row_changed None) "DELETE FROM t" false []
      = (Returned (json_text payload), []) /\
    get_prop payload "error" = Some (VBool true).
Proof.
  eexists. split; reflexivity.
Qed.

(** C5, amended. The envelope returned when a dangerous statement lacks
    confirmation is flagged [error: true] like a failure envelope.  It
    differs from the failure envelope of the [catch] branch in two
    properties: it has [requiresConfirmation: true] and no [code], while a
    failure envelope has a [code] and no [requiresConfirmation]. *)
Theorem confirmation_envelope_vs_failure (pool : Pool) (sql : string) (w : World) :
  begins_with_any dangerous_keywords sql = true ->
  exists payload,
    fst (execute_sql pool sql false w) = Returned (json_text payload) /\
    get_prop payload "error" = Some (VBool true) /\
    get_prop payload "requiresConfirmation" = Some (VBool true) /\
    get_prop payload "code" = None /\
    forall (e : JsError) (s : string),
      get_prop (failure_envelope e s) "error" = Some (VBool true) /\
      get_prop (failure_envelope e s) "requiresConfirmation" = None /\
      get_prop (failure_envelope e s) "code" = Some (VString (code_or_default e)) /\
      failure_envelope e s <> payload.
Proof.
  unfold begins_with_any. rewrite <- isDangerous_keywords. intros H.
  exists (confirmation_envelope sql).
  rewrite (execute_sql_gated pool sql w H).
  repeat split.
  intros Heq. discriminate Heq.
Qed.

Lemma confirmation_envelope_vs_failure_witness :
  exists payload,
    fst (execute_sql (rejecting_pool parse_error) "drop table t" false [])
      = Returned (json_text payload) /\
    get_prop payload "error" = Some (VBool true) /\
    get_prop payload "requiresConfirmation" = Some (VBool true) /\
    get_prop payload "code" = None /\
    forall (e : JsError) (s : string),
      get_prop (failure_envelope e s) "error" = Some (VBool true) /\
      get_prop (failure_envelope e s) "requiresConfirmation" = None /\
      get_prop (failure_envelope e s) "code" = Some (VString (code_or_default e)) /\
      failure_envelope e s <> payload.
Proof.
  apply (confirmation_envelope_vs_failure (rejecting_pool parse_error) "drop table t" []).
  reflexivity.
Defined.

(** ** The policy gate of [query_database] *)

(** C4. For every SQL text of 7-bit characters whose trimmed, upper-cased
    form begins with none of SELECT, SHOW, DESCRIBE, EXPLAIN,
    [query_database] returns an error envelope with [error: true], a
    message, a code and the original [sql], and leaves the trace as it
    found it: nothing was executed. *)
Theorem query_database_rejects_other_statements (pool : Pool) (sql : string) (w : World) :
  is_7bit sql = true ->
  begins_with_any read_only_keywords sql = false ->
  exists payload,
    query_database pool sql w = (Returned (json_text payload), w) /\
    get_prop payload "error" = Some (VBool true) /\
    get_prop payload "message" =
      Some (VString
        "Only SELECT, SHOW, DESCRIBE, and EXPLAIN queries are allowed with this tool") /\
    get_prop payload "code" = Some (VString "SQL_ERROR") /\
    get_prop payload "sql" = Some (VString sql) /\
    calls (snd (query_database pool sql w)) = calls w.
Proof.
  intros _.
  unfold begins_with_any, read_only_keywords. cbn [existsb].
  rewrite orb_false_r. intros H.
  apply orb_false_elim in H. destruct H as [Hselect H].
  apply orb_false_elim in H. destruct H as [Hshow H].
  apply orb_false_elim in H. destruct H as [Hdescribe Hexplain].
  unfold query_database, tryCatch, bind.
  rewrite Hselect, Hshow, Hdescribe, Hexplain. cbn.
  eexists. repeat split.
Qed.

Lemma query_database_rejects_other_statements_witness :
  exists payload,
    query_database (resolving_pool (RowsResult []) (Some [])) "DELETE FROM t" []
      = (Returned (json_text payload), []) /\
    get_prop payload "error" = Some (VBool true) /\
    get_prop payload "message" =
      Some (VString
        "Only SELECT, SHOW, DESCRIBE, and EXPLAIN queries are allowed with this tool") /\
    get_prop payload "code" = Some (VString "SQL_ERROR") /\
    get_prop payload "sql" = Some (VString "DELETE FROM t") /\
    calls (snd (query_database (resolving_pool (RowsResult []) (Some []))
                  "DELETE FROM t" [])) = calls [].
Proof.
  apply (query_database_rejects_other_statements
           (resolving_pool (RowsResult []) (Some [])) "DELETE FROM t" []);
    reflexivity.
Defined.

(** ** Classification by prefix *)

(** C10. Both gates test a string prefix, not a leading token: when the
    trimmed, upper-cased text is a keyword followed directly by any further
    characters, the statement is treated as if it began with that keyword.
    With a read-only keyword [query_database] lets it through to the pool;
    with a dangerous keyword [execute_sql] asks for confirmation and does
    not execute.  So [SELECTED x] passes the read-only gate and
    [DELETED x] triggers the confirmation gate. *)
Theorem gates_test_prefix_not_token
    (pool : Pool) (sql keyword rest : string) (w : World) :
  toUpperCase (trim sql) = (keyword ++ rest)%string ->
  (In keyword read_only_keywords ->
     exists evs, snd (query_database pool sql w) = w ++ PoolExecute sql [] :: evs) /\
  (In keyword dangerous_keywords ->
     execute_sql pool sql false w = (Returned (json_text (confirmation_envelope sql)), w)).
Proof.
  intros Htext. split; intros Hin.
  - rewrite query_database_trace.
    + destruct (executeWithRetry_events pool sql [] w) as (evs & Hw & _).
      exists evs. exact Hw.
    + unfold begins_with_any. rewrite Htext.
      apply (existsb_startsWith _ keyword); [exact Hin | apply startsWith_append].
  - apply execute_sql_gated.
    rewrite isDangerous_keywords, Htext.
    apply (existsb_startsWith _ keyword); [exact Hin | apply startsWith_append].
Qed.

Lemma gates_test_prefix_not_token_witness :
  (exists evs,
     snd (query_database (resolving_pool (RowsResult []) (Some [])) "SELECTED x" [])
       = [] ++ PoolExecute "SELECTED x" [] :: evs) /\
  execute_sql (resolving_pool one_row_changed None) "DELETED x" false []
    = (Returned (json_text (confirmation_envelope "DELETED x")), []).
Proof.
  split.
  - apply (gates_test_prefix_not_token
             (resolving_pool (RowsResult []) (Some [])) "SELECTED x" "SELECT" "ED X" []).
    + reflexivity.
    + simpl. auto.
  - apply (gates_test_prefix_not_token
             (resolving_pool one_row_changed None) "DELETED x" "DELETE" "D X" []).
    + reflexivity.
    + simpl. auto.
Defined.

(** ** Statements the confirmation gate lets through *)

(** When the gate does not fire the answer is a success or a failure
    envelope, not the request for confirmation; the statement went to the
    pool first, and [confirm] made no difference. *)
Lemma execute_sql_not_dangerous (pool : Pool) (sql : string) (w : World) :
  isDangerous (toUpperCase (trim sql)) = false ->
  execute_sql pool sql false w = execute_sql pool sql true w /\
  (exists evs, snd (execute_sql pool sql false w) = w ++ PoolExecute sql [] :: evs) /\
  (exists payload,
     fst (execute_sql pool sql false w) = Returned (json_text payload) /\
     get_prop payload "requiresConfirmation" = None).
Proof.
  intros H.
  assert (Hgate : forall confirm,
             isDangerous (toUpperCase (trim sql)) && negb confirm = false)
    by (intros confirm; rewrite H; reflexivity).
  split; [|split].
  - rewrite !execute_sql_ungated by apply Hgate. reflexivity.
  - rewrite execute_sql_ungated_trace by apply Hgate.
    destruct (executeWithRetry_events pool sql [] w) as (evs & Hw & _).
    exists evs. exact Hw.
  - rewrite execute_sql_ungated by apply Hgate.
    unfold tryCatch, bind.
    destruct (executeWithRetry pool sql [] default_retries w) as [[[rf|]|e] w'];
      cbn.
    + exists (responseData sql (fst rf) (snd rf)). split; [reflexivity|].
      unfold responseData.
      destruct (truthy (read_header insertId (fst rf)));
        destruct (read_header changedRows (fst rf));
        destruct (truthy (read_header warningCount (fst rf)) &&
                  gt_zero (read_header warningCount (fst rf)));
        destruct (fst rf) as [rows|h];
        try destruct (0 <? List.length rows);
        destruct (snd rf) as [fs|];
        try destruct (0 <? List.length fs);
        reflexivity.
    + eexists. split; reflexivity.
    + eexists. split; reflexivity.
Qed.




(** C9. Structural statements bypass the confirmation gate: when the
    trimmed, upper-cased text begins with CREATE, ALTER or INSERT,
    [execute_sql] with [confirm = false] sends the statement to the pool and
    behaves exactly as with [confirm = true]; its answer is not a request
    for confirmation. *)
Theorem execute_sql_structural_bypasses_gate (pool : Pool) (sql : string) (w : World) :
  begins_with_any structural_keywords sql = true ->
  execute_sql pool sql false w = execute_sql pool sql true w /\
  (exists evs, snd (execute_sql pool sql false w) = w ++ PoolExecute sql [] :: evs) /\
  (exists payload,
     fst (execute_sql pool sql false w) = Returned (json_text payload) /\
     get_prop payload "requiresConfirmation" = None).
Proof.
  unfold begins_with_any. rewrite <- isStructural_keywords. intros H.
  apply execute_sql_not_dangerous.
  apply isStructural_not_isDangerous. exact H.
Qed.

Lemma execute_sql_structural_bypasses_gate_witness :
  execute_sql (resolving_pool one_row_changed None) " insert into t values (1)" false []
    = execute_sql (resolving_pool one_row_changed None)
        " insert into t values (1)" true [] /\
  (exists evs,
     snd (execute_sql (resolving_pool one_row_changed None)
            " insert into t values (1)" false [])
       = [] ++ PoolExecute " insert into t values (1)" [] :: evs) /\
  (exists payload,
     fst (execute_sql (resolving_pool one_row_changed None)
            " insert into t values (1)" false [])
       = Returned (json_text payload) /\
     get_prop payload "requiresConfirmation" = None).
Proof.
  apply (execute_sql_structural_bypasses_gate
           (resolving_pool one_row_changed None) " insert into t values (1)" []).
  reflexivity.
Defined.

(** ** Retries *)

Section Retries.

Variable pool : Pool.
Variables (sql : string) (params : list JsValue).
Variable retries : nat.

(** The loop invariant [attempt + remaining = retries + 1] ties the
    counter of the model to the loop variable of the source.  Under it
    the loop makes [n] attempts with [n - 1] waits of one second between
    them; it returns at the first attempt that resolves and throws only
    when attempt [retries] was rejected as well. *)
Lemma retry_loop_attempts (remaining attempt : nat) (w : World) :
  1 <= remaining ->
  attempt + remaining = retries + 1 ->
  exists evs n,
    snd (retry_loop pool sql params retries remaining attempt w) = w ++ evs /\
    calls evs = repeat (sql, params) n /\
    waits evs = repeat 1000%Z (n - 1) /\
    1 <= n <= remaining /\
    (forall r f, execute pool w sql params = Resolved r f -> n = 1) /\
    (forall e, execute pool w sql params = Rejected e -> attempt < retries -> 2 <= n) /\
    match fst (retry_loop pool sql params retries remaining attempt w) with
    | Returned (Some _) => True
    | Returned None => False
    | Thrown e =>
        n = remaining /\
        exists before,
          w ++ evs = before ++ [PoolExecute sql params;
                                ConsoleError (AttemptFailed retries (message e))] /\
          execute pool before sql params = Rejected e
    end.
Proof.
  revert attempt w.
  induction remaining as [|k IH]; intros attempt w Hpos Hinv; [lia|].
  simpl. unfold tryCatch, bind, pool_execute.
  destruct (execute pool w sql params) as [result fields|error] eqn:Hreply; simpl.
  - exists [PoolExecute sql params], 1. simpl.
    repeat split; auto; try lia. intros e He. discriminate He.
  - unfold console_error, emit, bind. simpl.
    destruct (Nat.eqb_spec attempt retries) as [Heq|Hne]; simpl.
    + exists [PoolExecute sql params; ConsoleError (AttemptFailed attempt (message error))], 1.
      rewrite <- app_assoc. simpl. repeat split; auto; try lia.
      exists w. subst attempt. split; [reflexivity | exact Hreply].
    + remember (((w ++ [PoolExecute sql params]) ++
                   [ConsoleError (AttemptFailed attempt (message error))]) ++
                   [SetTimeout 1000]) as w1 eqn:Hw1.
      assert (Hw1' : w1 = w ++ [PoolExecute sql params;
                                ConsoleError (AttemptFailed attempt (message error));
                                SetTimeout 1000])
        by (rewrite Hw1, <- !app_assoc; reflexivity).
      destruct (IH (S attempt) w1) as (evs & n & Hw & Hc & Hwait & Hn & _ & _ & Hres);
        [lia | lia |].
      exists (PoolExecute sql params
                :: ConsoleError (AttemptFailed attempt (message error))
                :: SetTimeout 1000 :: evs), (S n).
      assert (Hext : w1 ++ evs
                     = w ++ PoolExecute sql params
                         :: ConsoleError (AttemptFailed attempt (message error))
                         :: SetTimeout 1000 :: evs)
        by (rewrite Hw1', <- app_assoc; reflexivity).
      rewrite Hw. simpl.
      repeat split.
      * exact Hext.
      * f_equal. exact Hc.
      * rewrite Hwait. destruct n as [|n]; [lia|]. simpl.
        rewrite Nat.sub_0_r. reflexivity.
      * lia.
      * lia.
      * intros r f Hr. discriminate Hr.
      * intros _ _ _. lia.
      * destruct (fst (retry_loop pool sql params retries k (S attempt) w1))
          as [[rf|]|e].
        -- exact I.
        -- exact Hres.
        -- destruct Hres as (Hnk & before & Hbefore & Hlast).
           split; [lia|].
           exists before. split; [|exact Hlast].
           rewrite <- Hbefore. symmetry. exact Hext.
Qed.

(** The loop is a run in the sense of [RetryRun]. *)
Lemma retry_loop_run (remaining attempt : nat) (w : World) :
  1 <= remaining ->
  attempt + remaining = retries + 1 ->
  RetryRun pool sql params retries attempt w
    (fst (retry_loop pool sql params retries remaining attempt w))
    (snd (retry_loop pool sql params retries remaining attempt w)).
Proof.
  revert attempt w.
  induction remaining as [|k IH]; intros attempt w Hpos Hinv; [lia|].
  simpl. unfold tryCatch, bind, pool_execute.
  destruct (execute pool w sql params) as [result fields|error] eqn:Hreply; simpl.
  - apply run_accepted. exact Hreply.
  - unfold console_error, emit, bind. simpl.
    destruct (Nat.eqb_spec attempt retries) as [Heq|Hne]; simpl.
    + subst attempt. rewrite <- app_assoc. apply run_rejected_last. exact Hreply.
    + apply (run_rejected_retry pool sql params retries attempt w _ error);
        [exact Hreply | lia |].
      replace (w ++ [PoolExecute sql params;
                     ConsoleError (AttemptFailed attempt (message error));
                     SetTimeout 1000])
        with (((w ++ [PoolExecute sql params]) ++
                 [ConsoleError (AttemptFailed attempt (message error))]) ++
                 [SetTimeout 1000])
        by (rewrite <- !app_assoc; reflexivity).
      apply IH; lia.
Qed.

End Retries.

(** For a given pool a run is unique: the description leaves the executor
    no choice of what to send, log or wait for, nor of when to stop. *)
Lemma RetryRun_deterministic
    (pool : Pool) (sql : string) (params : list JsValue) (retries attempt : nat)
    (w w1 w2 : World) (c1 c2 : Completion (option (DriverResult * Fields))) :
  RetryRun pool sql params retries attempt w c1 w1 ->
  RetryRun pool sql params retries attempt w c2 w2 ->
  c1 = c2 /\ w1 = w2.
Proof.
  intros H1. revert c2 w2.
  induction H1 as [attempt w r f Hreply | w error Hreply
                  | attempt w w' error c Hreply Hlt Hrun IH];
    intros c2 w2 H2; inversion H2; subst; try congruence; try lia.
  - split; congruence.
  - split; congruence.
  - apply IH.
    assert (Herr : error = error0) by congruence.
    subst error0. assumption.
Qed.

(** C2, as the specification has it, fails: a statement that the driver
    rejects with a syntax error is executed a second time, after a wait,
    before the error is returned. *)
Lemma syntax_error_is_retried :
  executeWithRetry (rejecting_pool parse_error) "SELEC 1" [] default_retries []
    = (Thrown parse_error,
       [ PoolExecute "SELEC 1" [];
         ConsoleError (AttemptFailed 1 "You have an error in your SQL syntax");
         SetTimeout 1000;
         PoolExecute "SELEC 1" [];
         ConsoleError (AttemptFailed 2 "You have an error in your SQL syntax") ]) /\
  List.length
    (calls (snd (executeWithRetry (rejecting_pool parse_error)
                   "SELEC 1" [] default_retries []))) <> 1.
Proof.
  split; [reflexivity|]. cbn. discriminate.
Qed.

(** C2, amended. The retrying executor does not tell transient from
    non-transient failures.  With [maxAttempts >= 1] its run is a
    [RetryRun] from attempt 1: an attempt that is rejected, whatever the
    error, is logged and, unless it was attempt [maxAttempts], followed by
    a wait of 1000 ms and the next attempt; the first attempt that is
    accepted ends the run with its answer; and a failure is returned only
    when attempt [maxAttempts] was rejected too, the failure being that
    attempt's error.  In numbers: the statement is sent [n] times,
    [1 <= n <= maxAttempts], with [n - 1] waits of one second, [n = 1]
    when the first attempt is accepted, [n >= 2] when it is rejected and
    [maxAttempts > 1], and [n = maxAttempts] when the executor throws. *)
Theorem executeWithRetry_retries_every_failure
    (pool : Pool) (sql : string) (params : list JsValue) (retries : nat) (w : World) :
  1 <= retries ->
  RetryRun pool sql params retries 1 w
    (fst (executeWithRetry pool sql params retries w))
    (snd (executeWithRetry pool sql params retries w)) /\
  exists evs n,
    snd (executeWithRetry pool sql params retries w) = w ++ evs /\
    calls evs = repeat (sql, params) n /\
    waits evs = repeat 1000%Z (n - 1) /\
    1 <= n <= retries /\
    (forall r f, execute pool w sql params = Resolved r f -> n = 1) /\
    (forall e, execute pool w sql params = Rejected e -> 1 < retries -> 2 <= n) /\
    match fst (executeWithRetry pool sql params retries w) with
    | Returned (Some _) => True
    | Returned None => False
    | Thrown e =>
        n = retries /\
        exists before,
          w ++ evs = before ++ [PoolExecute sql params;
                                ConsoleError (AttemptFailed retries (message e))] /\
          execute pool before sql params = Rejected e
    end.
Proof.
  intros Hpos. unfold executeWithRetry. split.
  - apply retry_loop_run; lia.
  - apply retry_loop_attempts; lia.
Qed.

Lemma executeWithRetry_retries_every_failure_witness :
  RetryRun (rejecting_pool parse_error) "SELEC 1" [] 3 1 []
    (fst (executeWithRetry (rejecting_pool parse_error) "SELEC 1" [] 3 []))
    (snd (executeWithRetry (rejecting_pool parse_error) "SELEC 1" [] 3 [])) /\
  exists evs n,
    snd (executeWithRetry (rejecting_pool parse_error) "SELEC 1" [] 3 []) = [] ++ evs /\
    calls evs = repeat ("SELEC 1", []) n /\
    waits evs = repeat 1000%Z (n - 1) /\
    1 <= n <= 3 /\
    (forall r f,
       execute (rejecting_pool parse_error) [] "SELEC 1" [] = Resolved r f -> n = 1) /\
    (forall e,
       execute (rejecting_pool parse_error) [] "SELEC 1" [] = Rejected e -> 1 < 3 -> 2 <= n) /\
    match fst (executeWithRetry (rejecting_pool parse_error) "SELEC 1" [] 3 []) with
    | Returned (Some _) => True
    | Returned None => False
    | Thrown e =>
        n = 3 /\
        exists before,
          [] ++ evs = before ++ [PoolExecute "SELEC 1" [];
                                 ConsoleError (AttemptFailed 3 (message e))] /\
          execute (rejecting_pool parse_error) before "SELEC 1" [] = Rejected e
    end.
Proof.
  apply (executeWithRetry_retries_every_failure
           (rejecting_pool parse_error) "SELEC 1" [] 3 []).
  lia.
Defined.

(** ** Normalizing a write result *)

(** C6. Whenever a statement passes the gate, because [confirm] is set or
    because its text, of 7-bit characters, does not begin with a dangerous
    keyword, and the executor hands [execute_sql] a header (a write
    result), the handler returns a success envelope with [success: true],
    the original [sql] and [affectedRows] (0 when the driver gave none).  [insertId] is present exactly when the
    driver's [insertId] is defined and nonzero, [changedRows] exactly when
    the driver's [changedRows] is defined, and [warningCount] exactly when
    the driver's [warningCount] is greater than 0; otherwise the property
    is absent. *)
Theorem execute_sql_write_result_envelope
    (pool : Pool) (sql : string) (confirm : bool) (w w' : World)
    (h : ResultSetHeader) (fields : Fields) :
  confirm = true \/
    (is_7bit sql = true /\ isDangerous (toUpperCase (trim sql)) = false) ->
  executeWithRetry pool sql [] default_retries w
    = (Returned (Some (HeaderResult h, fields)), w') ->
  exists payload,
    execute_sql pool sql confirm w = (Returned (json_text payload), w') /\
    get_prop payload "success" = Some (VBool true) /\
    get_prop payload "sql" = Some (VString sql) /\
    get_prop payload "affectedRows" =
      Some (VNumber (match affectedRows h with Some n => n | None => 0%Z end)) /\
    get_prop payload "insertId" =
      match insertId h with
      | Some n => if (n =? 0)%Z then None else Some (VNumber n)
      | None => None
      end /\
    get_prop payload "changedRows" =
      match changedRows h with
      | Some n => Some (VNumber n)
      | None => None
      end /\
    get_prop payload "warningCount" =
      match warningCount h with
      | Some n => if (0 <? n)%Z then Some (VNumber n) else None
      | None => None
      end.
Proof.
  intros Hopen Hrun.
  assert (Hgate : isDangerous (toUpperCase (trim sql)) && negb confirm = false).
  { destruct Hopen as [->|[_ ->]]; [apply andb_false_r | reflexivity]. }
  exists (responseData sql (HeaderResult h) fields).
  split.
  - rewrite execute_sql_ungated by exact Hgate.
    unfold tryCatch, bind. rewrite Hrun. reflexivity.
  - destruct h as [aff ins chg warn].
    destruct aff as [a|], ins as [i|], chg as [c|], warn as [wc|],
             fields as [[|f fs]|];
      unfold responseData, read_header, truthy, gt_zero;
      cbn [affectedRows insertId changedRows warningCount of_option_number
           List.length Nat.ltb Nat.leb negb andb];
      repeat match goal with
             | |- context [(?x =? 0)%Z] => destruct (Z.eqb_spec x 0)
             | |- context [(0 <? ?x)%Z] => destruct (Z.ltb_spec 0 x)
             end;
      try lia; subst; cbn; repeat split; reflexivity.
Qed.

Lemma execute_sql_write_result_envelope_witness :
  exists payload,
    execute_sql (flaky_pool connection_lost
                   (HeaderResult (mkHeader (Some 1%Z) (Some 42%Z) None (Some 0%Z))) None)
                "INSERT INTO t VALUES (1)" false []
      = (Returned (json_text payload),
         [ PoolExecute "INSERT INTO t VALUES (1)" [];
           ConsoleError
             (AttemptFailed 1 "Connection lost: The server closed the connection.");
           SetTimeout 1000;
           PoolExecute "INSERT INTO t VALUES (1)" [] ]) /\
    get_prop payload "success" = Some (VBool true) /\
    get_prop payload "sql" = Some (VString "INSERT INTO t VALUES (1)") /\
    get_prop payload "affectedRows" = Some (VNumber 1) /\
    get_prop payload "insertId" = Some (VNumber 42) /\
    get_prop payload "changedRows" = None /\
    get_prop payload "warningCount" = None.
Proof.
  apply (execute_sql_write_result_envelope
           (flaky_pool connection_lost
              (HeaderResult (mkHeader (Some 1%Z) (Some 42%Z) None (Some 0%Z))) None)
           "INSERT INTO t VALUES (1)" false []
           [ PoolExecute "INSERT INTO t VALUES (1)" [];
             ConsoleError
               (AttemptFailed 1 "Connection lost: The server closed the connection.");
             SetTimeout 1000;
             PoolExecute "INSERT INTO t VALUES (1)" [] ]
           (mkHeader (Some 1%Z) (Some 42%Z) None (Some 0%Z)) None);
    [right; split; reflexivity | reflexivity].
Defined.

(** ** Shutdown *)

(** C7, as the specification has it, fails: the second [cleanup] calls
    [pool.end()] again on the pool the first one closed. *)
Lemma cleanup_twice_ends_pool_twice :
  cleanup_twice (Some (resolving_pool (RowsResult []) None)) []
    = (Returned tt,
       [PoolEnd; ConsoleError PoolClosed; PoolEnd; ConsoleError PoolClosed]) /\
  pool_ends (snd (cleanup_twice (Some (resolving_pool (RowsResult []) None)) [])) <> 1.
Proof.
  split; [reflexivity|]. cbn. discriminate.
Qed.

(** C7, amended. Invoking [cleanup] twice in sequence never throws: both
    invocations return normally.  Each invocation calls [pool.end()] once
    and then writes one line to [console.error]: the closing message when
    [pool.end()] succeeded, and the message of the error when it failed,
    the error being caught.  There is no guard against closing twice: the
    second invocation calls [pool.end()] again, so the pool is asked to
    close two times. *)
Theorem cleanup_twice_no_error_two_ends (pool : Pool) (w : World) :
  let line w0 :=
    ConsoleError (match pool_end pool w0 with
                  | None => PoolClosed
                  | Some error => PoolCloseError (message error)
                  end) in
  let w1 := w ++ [PoolEnd; line w] in
  let w2 := w1 ++ [PoolEnd; line w1] in
  cleanup (Some pool) w = (Returned tt, w1) /\
  cleanup (Some pool) w1 = (Returned tt, w2) /\
  cleanup_twice (Some pool) w = (Returned tt, w2) /\
  fst (cleanup (Some pool) w) = Returned tt /\
  fst (cleanup (Some pool) (snd (cleanup (Some pool) w))) = Returned tt /\
  fst (cleanup_twice (Some pool) w) = Returned tt /\
  pool_ends (snd (cleanup (Some pool) w)) = pool_ends w + 1 /\
  pool_ends (snd (cleanup_twice (Some pool) w)) = pool_ends w + 2.
Proof.
  intros line w1 w2.
  assert (Hone : forall w0,
             cleanup (Some pool) w0 = (Returned tt, w0 ++ [PoolEnd; line w0])).
  { intros w0. subst line.
    unfold cleanup, tryCatch, bind, pool_end_call, console_error, emit.
    destruct (pool_end pool w0); cbn; rewrite <- app_assoc; reflexivity. }
  assert (H1 : cleanup (Some pool) w = (Returned tt, w1)) by apply Hone.
  assert (H2 : cleanup (Some pool) w1 = (Returned tt, w2)) by apply Hone.
  assert (Htwice : cleanup_twice (Some pool) w = (Returned tt, w2)).
  { unfold cleanup_twice, bind. rewrite H1. exact H2. }
  rewrite Htwice, H1. cbn [fst snd]. rewrite H2. cbn [fst snd].
  subst w2 w1. rewrite !pool_ends_app. cbn.
  repeat split; lia.
Qed.

(** ** [describe_table] *)

Lemma since_app (w evs : World) : since w (w ++ evs) = evs.
Proof.
  unfold since. induction w as [|e w IH]; simpl; [reflexivity | exact IH].
Qed.

Lemma describe_table_trace (pool : Pool) (table : string) (w : World) :
  snd (describe_table pool table w)
    = snd (executeWithRetry pool "DESCRIBE ??" [VString table] default_retries w).
Proof.
  unfold describe_table, tryCatch, bind.
  destruct (executeWithRetry pool "DESCRIBE ??" [VString table] default_retries w)
    as [[[rf|]|e] w']; reflexivity.
Qed.

Lemma describe_table_sent (pool : Pool) (table : string) (w : World) :
  exists n,
    1 <= n <= default_retries /\
    calls (since w (snd (describe_table pool table w)))
      = repeat ("DESCRIBE ??", [VString table]) n.
Proof.
  rewrite describe_table_trace.
  destruct (executeWithRetry_events pool "DESCRIBE ??" [VString table] w)
    as (evs & Hw & n & Hc & Hn).
  exists n. rewrite Hw, since_app. split; assumption.
Qed.

(** C8. Whatever the table name, every statement [describe_table] sends to
    the driver has the SQL text [DESCRIBE ??], and the table name travels
    only in the parameter list, as its single element.  So the SQL texts
    sent for any two table names are the same. *)
Theorem describe_table_sql_is_constant (pool : Pool) (table1 table2 : string) (w : World) :
  let sent table := calls (since w (snd (describe_table pool table w))) in
  (exists n, 1 <= n <= default_retries /\
             sent table1 = repeat ("DESCRIBE ??", [VString table1]) n) /\
  Forall (fun c1 => fst c1 = "DESCRIBE ??" /\
                    Forall (fun c2 => fst c1 = fst c2) (sent table2))
         (sent table1).
Proof.
  intros sent. subst sent. cbv beta.
  destruct (describe_table_sent pool table1 w) as (n1 & Hn1 & H1).
  destruct (describe_table_sent pool table2 w) as (n2 & Hn2 & H2).
  split.
  - exists n1. split; assumption.
  - rewrite H1, H2.
    apply Forall_forall. intros c1 Hc1.
    apply repeat_spec in Hc1. subst c1. split; [reflexivity|].
    apply Forall_forall. intros c2 Hc2.
    apply repeat_spec in Hc2. subst c2. reflexivity.
Qed.


(** * Further properties of the server *)

(** ** Handlers always answer *)

Lemma tryCatch_returns {A : Type} (body : Async A) (h : JsError -> A) (w : World) :
  exists a, fst (tryCatch body (fun error => ret (h error)) w) = Returned a.
Proof.
  unfold tryCatch, ret.
  destruct (body w) as [[a|e] w']; eexists; reflexivity.
Qed.

(** X1. Whatever the pool does and whatever the arguments are, each of the
    six tool handlers returns a response: no error of the driver and no
    [TypeError] on an unexpected result shape escapes a handler. *)
Theorem every_tool_returns_a_response
    (pool : Pool) (config : Config) (sql table : string) (confirm : bool) (w : World) :
  (exists r, fst (query_database pool sql w) = Returned r) /\
  (exists r, fst (execute_sql pool sql confirm w) = Returned r) /\
  (exists r, fst (list_tables pool w) = Returned r) /\
  (exists r, fst (describe_table pool table w) = Returned r) /\
  (exists r, fst (show_databases pool w) = Returned r) /\
  (exists r, fst (server_info pool config w) = Returned r).
Proof.
  repeat split.
  - apply (tryCatch_returns _ (fun error => json_text (failure_envelope error sql))).
  - apply (tryCatch_returns _ (fun error => json_text (failure_envelope error sql))).
  - apply (tryCatch_returns _ (fun error => json_text (plain_failure_envelope error))).
  - apply (tryCatch_returns _
             (fun error => json_text (describe_failure_envelope error table))).
  - apply (tryCatch_returns _ (fun error => json_text (plain_failure_envelope error))).
  - apply (tryCatch_returns _ (fun error => json_text (plain_failure_envelope error))).
Qed.

(** ** More on the retrying executor *)

(** X2. With [retries = 0] the loop body never runs: the executor makes no
    call, leaves no trace and returns [undefined] instead of a result.
    With any positive [retries] it never returns [undefined]. *)
Theorem executeWithRetry_undefined_only_without_attempts
    (pool : Pool) (sql : string) (params : list JsValue) (k : nat) (w : World) :
  executeWithRetry pool sql params 0 w = (Returned None, w) /\
  fst (executeWithRetry pool sql params (S k) w) <> Returned None.
Proof.
  split; [reflexivity|].
  unfold executeWithRetry.
  destruct (retry_loop_attempts pool sql params (S k) (S k) 1 w)
    as (evs & n & _ & _ & _ & _ & _ & _ & Hres); [lia | lia |].
  intros Heq. rewrite Heq in Hres. exact Hres.
Qed.

Lemma app3 (w : World) (a b c : Event) :
  ((w ++ [a]) ++ [b]) ++ [c] = w ++ [a; b; c].
Proof.
  rewrite <- !app_assoc. reflexivity.
Qed.

(** Two attempts, the first rejected: what the executor does next depends
    on the second answer only. *)
Lemma executeWithRetry_after_rejection
    (pool : Pool) (sql : string) (params : list JsValue) (w : World) (e1 : JsError) :
  execute pool w sql params = Rejected e1 ->
  executeWithRetry pool sql params default_retries w =
    match execute pool (w ++ [PoolExecute sql params;
                              ConsoleError (AttemptFailed 1 (message e1));
                              SetTimeout 1000]) sql params with
    | Resolved result fields =>
        (Returned (Some (result, fields)),
         w ++ [PoolExecute sql params;
               ConsoleError (AttemptFailed 1 (message e1));
               SetTimeout 1000;
               PoolExecute sql params])
    | Rejected e2 =>
        (Thrown e2,
         w ++ [PoolExecute sql params;
               ConsoleError (AttemptFailed 1 (message e1));
               SetTimeout 1000;
               PoolExecute sql params;
               ConsoleError (AttemptFailed 2 (message e2))])
    end.
Proof.
  intros H1.
  unfold executeWithRetry, default_retries. cbn [retry_loop].
  unfold tryCatch, bind, pool_execute, console_error, setTimeout, emit, ret, throw.
  rewrite H1. cbn. rewrite app3.
  remember (w ++ [PoolExecute sql params;
                  ConsoleError (AttemptFailed 1 (message e1));
                  SetTimeout 1000]) as w1 eqn:Hw1.
  destruct (execute pool w1 sql params) as [result fields|e2]; cbn;
    rewrite Hw1, <- !app_assoc; reflexivity.
Qed.

(** X3. With the default two attempts, a statement rejected on attempt 1
    and accepted on attempt 2 succeeds: the executor returns the second
    answer, and the trace shows exactly the first call, one log line for
    attempt 1, one wait of 1000 ms and the second call. *)
Theorem executeWithRetry_recovers_on_second_attempt
    (pool : Pool) (sql : string) (params : list JsValue) (w : World)
    (e1 : JsError) (result : DriverResult) (fields : Fields) :
  execute pool w sql params = Rejected e1 ->
  execute pool (w ++ [PoolExecute sql params;
                      ConsoleError (AttemptFailed 1 (message e1));
                      SetTimeout 1000]) sql params = Resolved result fields ->
  executeWithRetry pool sql params default_retries w =
    (Returned (Some (result, fields)),
     w ++ [PoolExecute sql params;
           ConsoleError (AttemptFailed 1 (message e1));
           SetTimeout 1000;
           PoolExecute sql params]).
Proof.
  intros H1 H2.
  rewrite (executeWithRetry_after_rejection pool sql params w e1 H1), H2.
  reflexivity.
Qed.

Lemma executeWithRetry_recovers_on_second_attempt_witness :
  executeWithRetry (flaky_pool connection_lost (RowsResult [VNumber 1]) None)
      "SELECT 1" [] default_retries [] =
    (Returned (Some (RowsResult [VNumber 1], None)),
     [] ++ [PoolExecute "SELECT 1" [];
            ConsoleError (AttemptFailed 1 (message connection_lost));
            SetTimeout 1000;
            PoolExecute "SELECT 1" []]).
Proof.
  apply (executeWithRetry_recovers_on_second_attempt
           (flaky_pool connection_lost (RowsResult [VNumber 1]) None)
           "SELECT 1" [] [] connection_lost (RowsResult [VNumber 1]) None);
    reflexivity.
Defined.

(** ** The three tiers *)

Ltac split_on_first_characters :=
  repeat match goal with
         | |- context [Ascii.eqb ?c ?k] =>
             is_var c; destruct (Ascii.eqb_spec c k); subst; cbn
         end.

Lemma read_only_not_dangerous (t : string) :
  existsb (startsWith t) read_only_keywords = true -> isDangerous t = false.
Proof.
  unfold isDangerous, read_only_keywords.
  destruct t as [|c1 [|c2 [|c3 t]]]; cbn;
    split_on_first_characters; intros H; try reflexivity; try discriminate H.
Qed.

Lemma read_only_not_structural (t : string) :
  existsb (startsWith t) read_only_keywords = true -> isStructural t = false.
Proof.
  unfold isStructural, read_only_keywords.
  destruct t as [|c1 t]; cbn;
    split_on_first_characters; intros H; try reflexivity; try discriminate H.
Qed.

(** X9. The three keyword tiers are pairwise disjoint: no statement begins,
    after trimming and upper-casing, with a read-only keyword and a
    structural one, with a read-only and a dangerous one, or with a
    structural and a dangerous one.  The order in which the handlers test
    the prefixes therefore never matters. *)
Theorem keyword_tiers_are_disjoint (sql : string) :
  begins_with_any read_only_keywords sql && begins_with_any structural_keywords sql = false /\
  begins_with_any read_only_keywords sql && begins_with_any dangerous_keywords sql = false /\
  begins_with_any structural_keywords sql && begins_with_any dangerous_keywords sql = false.
Proof.
  unfold begins_with_any.
  rewrite <- isStructural_keywords, <- isDangerous_keywords.
  repeat split.
  - destruct (existsb (startsWith (toUpperCase (trim sql))) read_only_keywords) eqn:H;
      [|reflexivity].
    rewrite (read_only_not_structural _ H). reflexivity.
  - destruct (existsb (startsWith (toUpperCase (trim sql))) read_only_keywords) eqn:H;
      [|reflexivity].
    rewrite (read_only_not_dangerous _ H). reflexivity.
  - destruct (isStructural (toUpperCase (trim sql))) eqn:H; [|reflexivity].
    rewrite (isStructural_not_isDangerous _ H). reflexivity.
Qed.

(** ** Handlers past their gates *)

Lemma query_database_allowed (pool : Pool) (sql : string) (w : World) :
  begins_with_any read_only_keywords sql = true ->
  query_database pool sql w =
    tryCatch
      (r <- executeWithRetry pool sql [] default_retries ;;
       rf <- destructure r ;;
       ret (json_text (query_envelope (fst rf) (snd rf))))
      (fun error => ret (json_text (failure_envelope error sql))) w.
Proof.
  unfold begins_with_any, read_only_keywords. cbn [existsb].
  rewrite orb_false_r. intros H.
  assert (Hgate : negb (startsWith (toUpperCase (trim sql)) "SELECT") &&
                  negb (startsWith (toUpperCase (trim sql)) "SHOW") &&
                  negb (startsWith (toUpperCase (trim sql)) "DESCRIBE") &&
                  negb (startsWith (toUpperCase (trim sql)) "EXPLAIN") = false).
  { destruct (startsWith (toUpperCase (trim sql)) "SELECT"),
             (startsWith (toUpperCase (trim sql)) "SHOW"),
             (startsWith (toUpperCase (trim sql)) "DESCRIBE"),
             (startsWith (toUpperCase (trim sql)) "EXPLAIN");
      try reflexivity; discriminate H. }
  unfold query_database, tryCatch, bind. rewrite Hgate. reflexivity.
Qed.

(** X4. When both attempts of a read-only statement are rejected, the
    envelope reports the error of the second attempt, not of the first:
    its message, and its code or [SQL_ERROR] when the error has no code or
    an empty one, together with the original [sql].  [query_database] and
    [execute_sql] answer alike and leave the same trace. *)
Theorem failure_envelope_reports_last_error
    (pool : Pool) (sql : string) (w : World) (e1 e2 : JsError) :
  begins_with_any read_only_keywords sql = true ->
  execute pool w sql [] = Rejected e1 ->
  execute pool (w ++ [PoolExecute sql [];
                      ConsoleError (AttemptFailed 1 (message e1));
                      SetTimeout 1000]) sql [] = Rejected e2 ->
  let payload :=
    [ ("error", VBool true);
      ("message", VString (message e2));
      ("code", VString (match code e2 with
                        | Some c => if String.eqb c EmptyString then "SQL_ERROR" else c
                        | None => "SQL_ERROR"
                        end));
      ("sql", VString sql) ] in
  let trace :=
    w ++ [PoolExecute sql [];
          ConsoleError (AttemptFailed 1 (message e1));
          SetTimeout 1000;
          PoolExecute sql [];
          ConsoleError (AttemptFailed 2 (message e2))] in
  query_database pool sql w = (Returned (json_text payload), trace) /\
  execute_sql pool sql false w = (Returned (json_text payload), trace).
Proof.
  intros Hgate H1 H2 payload trace.
  assert (Hrun : executeWithRetry pool sql [] default_retries w = (Thrown e2, trace)).
  { rewrite (executeWithRetry_after_rejection pool sql [] w e1 H1), H2. reflexivity. }
  split.
  - rewrite (query_database_allowed pool sql w Hgate).
    unfold tryCatch, bind. rewrite Hrun. reflexivity.
  - rewrite execute_sql_ungated.
    + unfold tryCatch, bind. rewrite Hrun. reflexivity.
    + unfold begins_with_any in Hgate.
      rewrite (read_only_not_dangerous _ Hgate). reflexivity.
Qed.

Lemma failure_envelope_reports_last_error_witness :
  let payload :=
    [ ("error", VBool true);
      ("message", VString "You have an error in your SQL syntax");
      ("code", VString "ER_PARSE_ERROR");
      ("sql", VString "SELECT * FORM t") ] in
  let trace :=
    [] ++ [PoolExecute "SELECT * FORM t" [];
           ConsoleError (AttemptFailed 1 (message connection_lost));
           SetTimeout 1000;
           PoolExecute "SELECT * FORM t" [];
           ConsoleError (AttemptFailed 2 (message parse_error))] in
  query_database (twice_rejecting_pool connection_lost parse_error) "SELECT * FORM t" []
    = (Returned (json_text payload), trace) /\
  execute_sql (twice_rejecting_pool connection_lost parse_error) "SELECT * FORM t" false []
    = (Returned (json_text payload), trace).
Proof.
  apply (failure_envelope_reports_last_error
           (twice_rejecting_pool connection_lost parse_error) "SELECT * FORM t" []
           connection_lost parse_error); reflexivity.
Defined.

Lemma query_database_policy_error
    (pool : Pool) (sql : string) (w : World) :
  begins_with_any read_only_keywords sql = false ->
  exists e, fst (query_database pool sql w) = Returned (json_text (failure_envelope e sql)).
Proof.
  unfold begins_with_any, read_only_keywords. cbn [existsb].
  rewrite orb_false_r. intros H.
  apply orb_false_elim in H. destruct H as [Hselect H].
  apply orb_false_elim in H. destruct H as [Hshow H].
  apply orb_false_elim in H. destruct H as [Hdescribe Hexplain].
  unfold query_database, tryCatch, bind.
  rewrite Hselect, Hshow, Hdescribe, Hexplain. cbn.
  eexists. reflexivity.
Qed.

Lemma code_or_default_nonempty (e : JsError) : code_or_default e <> EmptyString.
Proof.
  unfold code_or_default.
  destruct (code e) as [c|]; [|discriminate].
  destruct (String.eqb_spec c EmptyString); [discriminate | assumption].
Qed.

(** A run that returns a result returns the pool's answer to its last
    call. *)
Lemma RetryRun_returned
    (pool : Pool) (sql : string) (params : list JsValue) (retries attempt : nat)
    (w w' : World) (c : Completion (option (DriverResult * Fields))) :
  RetryRun pool sql params retries attempt w c w' ->
  forall result fields,
    c = Returned (Some (result, fields)) ->
    exists before,
      w' = before ++ [PoolExecute sql params] /\
      execute pool before sql params = Resolved result fields.
Proof.
  induction 1 as [attempt w r f Hreply | w error Hreply
                 | attempt w w' error c Hreply Hlt Hrun IH];
    intros result fields Hc.
  - injection Hc as <- <-. exists w. split; [reflexivity | exact Hreply].
  - discriminate Hc.
  - exact (IH result fields Hc).
Qed.

Lemma executeWithRetry_answer
    (pool : Pool) (sql : string) (params : list JsValue) (w w' : World)
    (result : DriverResult) (fields : Fields) :
  executeWithRetry pool sql params default_retries w
    = (Returned (Some (result, fields)), w') ->
  exists before,
    w' = before ++ [PoolExecute sql params] /\
    execute pool before sql params = Resolved result fields.
Proof.
  intros Hrun.
  assert (Hrel : RetryRun pool sql params default_retries 1 w
                   (fst (executeWithRetry pool sql params default_retries w))
                   (snd (executeWithRetry pool sql params default_retries w)))
    by (unfold executeWithRetry, default_retries; apply retry_loop_run; lia).
  rewrite Hrun in Hrel.
  exact (RetryRun_returned _ _ _ _ _ _ _ _ Hrel result fields eq_refl).
Qed.

(** X5. Every response of [query_database] to a text of 7-bit characters
    is exactly one of two shapes.  Either it is an error envelope:
    [error: true], no [success], the original [sql] and a non-empty
    [code].  Or it is a success envelope: [success: true], no [error], and
    then the statement began with a read-only keyword, the last event of
    the trace is a call with the caller's text, and the envelope is made
    of the pool's answer to that call: the result as [data], [rowCount]
    the number of rows of an array result and 0 otherwise, and [fields]
    the summaries of the driver's fields. *)
Theorem query_database_response_shape (pool : Pool) (sql : string) (w : World) :
  is_7bit sql = true ->
  exists payload,
    fst (query_database pool sql w) = Returned (json_text payload) /\
    ((get_prop payload "error" = Some (VBool true) /\
      get_prop payload "success" = None /\
      get_prop payload "sql" = Some (VString sql) /\
      exists c, get_prop payload "code" = Some (VString c) /\ c <> EmptyString)
     \/
     (get_prop payload "success" = Some (VBool true) /\
      get_prop payload "error" = None /\
      begins_with_any read_only_keywords sql = true /\
      exists result fields before,
        snd (query_database pool sql w) = before ++ [PoolExecute sql []] /\
        execute pool before sql [] = Resolved result fields /\
        get_prop payload "data" = Some (result_value result) /\
        get_prop payload "rowCount" =
          Some (VNumber (match result with
                         | RowsResult rows => Z.of_nat (List.length rows)
                         | HeaderResult _ => 0%Z
                         end)) /\
        get_prop payload "fields" =
          Some (VArray (match fields with
                        | Some fs => map field_summary fs
                        | None => []
                        end)))).
Proof.
  intros _.
  assert (Herr : forall e,
             get_prop (failure_envelope e sql) "error" = Some (VBool true) /\
             get_prop (failure_envelope e sql) "success" = None /\
             get_prop (failure_envelope e sql) "sql" = Some (VString sql) /\
             exists c, get_prop (failure_envelope e sql) "code" = Some (VString c) /\
                       c <> EmptyString).
  { intros e. repeat split. exists (code_or_default e).
    split; [reflexivity | apply code_or_default_nonempty]. }
  destruct (begins_with_any read_only_keywords sql) eqn:Hgate.
  - rewrite (query_database_allowed pool sql w Hgate).
    unfold tryCatch, bind.
    destruct (executeWithRetry pool sql [] default_retries w)
      as [[[[result fields]|]|e] w'] eqn:Hrun; cbn.
    + destruct (executeWithRetry_answer pool sql [] w w' result fields Hrun)
        as (before & Hw' & Hreply).
      eexists. split; [reflexivity|]. right.
      split; [reflexivity|]. split; [reflexivity|]. split; [reflexivity|].
      exists result, fields, before.
      split; [exact Hw'|]. split; [exact Hreply|].
      repeat split.
    + eexists. split; [reflexivity|]. left. apply Herr.
    + eexists. split; [reflexivity|]. left. apply Herr.
  - destruct (query_database_policy_error pool sql w Hgate) as [e He].
    exists (failure_envelope e sql). split; [exact He|]. left. apply Herr.
Qed.

Lemma query_database_response_shape_witness :
  exists payload,
    fst (query_database (resolving_pool (RowsResult [VObject [("n", VNumber 1)]]) None)
           "select 1 as n" [])
      = Returned (json_text payload) /\
    ((get_prop payload "error" = Some (VBool true) /\
      get_prop payload "success" = None /\
      get_prop payload "sql" = Some (VString "select 1 as n") /\
      exists c, get_prop payload "code" = Some (VString c) /\ c <> EmptyString)
     \/
     (get_prop payload "success" = Some (VBool true) /\
      get_prop payload "error" = None /\
      begins_with_any read_only_keywords "select 1 as n" = true /\
      exists result fields before,
        snd (query_database (resolving_pool (RowsResult [VObject [("n", VNumber 1)]]) None)
               "select 1 as n" [])
          = before ++ [PoolExecute "select 1 as n" []] /\
        execute (resolving_pool (RowsResult [VObject [("n", VNumber 1)]]) None)
          before "select 1 as n" [] = Resolved result fields /\
        get_prop payload "data" = Some (result_value result) /\
        get_prop payload "rowCount" =
          Some (VNumber (match result with
                         | RowsResult rows => Z.of_nat (List.length rows)
                         | HeaderResult _ => 0%Z
                         end)) /\
        get_prop payload "fields" =
          Some (VArray (match fields with
                        | Some fs => map field_summary fs
                        | None => []
                        end)))).
Proof.
  apply (query_database_response_shape
           (resolving_pool (RowsResult [VObject [("n", VNumber 1)]]) None)
           "select 1 as n" []).
  reflexivity.
Defined.

(** X6. When a statement passes the gate, because [confirm] is set or
    because its text, of 7-bit characters, does not begin with a dangerous
    keyword, and [execute_sql] is handed an array of rows (a SELECT sent
    through this tool), the success envelope has [affectedRows: 0] and none
    of [insertId], [changedRows], [warningCount].  [data] and [rowCount]
    are present exactly when the array is not empty, and [fields] exactly
    when the driver gave at least one field; [fieldCount] is the number of
    fields, 0 when the driver gave none. *)
Theorem execute_sql_rows_envelope
    (pool : Pool) (sql : string) (confirm : bool) (w w' : World)
    (rows : list JsValue) (fields : Fields) :
  confirm = true \/
    (is_7bit sql = true /\ isDangerous (toUpperCase (trim sql)) = false) ->
  executeWithRetry pool sql [] default_retries w
    = (Returned (Some (RowsResult rows, fields)), w') ->
  exists payload,
    execute_sql pool sql confirm w = (Returned (json_text payload), w') /\
    get_prop payload "success" = Some (VBool true) /\
    get_prop payload "affectedRows" = Some (VNumber 0) /\
    get_prop payload "insertId" = None /\
    get_prop payload "changedRows" = None /\
    get_prop payload "warningCount" = None /\
    get_prop payload "data" =
      match rows with
      | [] => None
      | _ :: _ => Some (VArray rows)
      end /\
    get_prop payload "rowCount" =
      match rows with
      | [] => None
      | _ :: _ => Some (VNumber (Z.of_nat (List.length rows)))
      end /\
    get_prop payload "fieldCount" =
      Some (VNumber (match fields with
                     | Some fs => Z.of_nat (List.length fs)
                     | None => 0%Z
                     end)) /\
    get_prop payload "fields" =
      match fields with
      | Some (f :: fs) => Some (VArray (map field_summary (f :: fs)))
      | _ => None
      end.
Proof.
  intros Hopen Hrun.
  assert (Hgate : isDangerous (toUpperCase (trim sql)) && negb confirm = false).
  { destruct Hopen as [->|[_ ->]]; [apply andb_false_r | reflexivity]. }
  exists (responseData sql (RowsResult rows) fields).
  split.
  - rewrite execute_sql_ungated by exact Hgate.
    unfold tryCatch, bind. rewrite Hrun. reflexivity.
  - destruct rows as [|row rows], fields as [[|f fs]|]; cbn; repeat split; reflexivity.
Qed.

Lemma execute_sql_rows_envelope_witness :
  exists payload,
    execute_sql (resolving_pool (RowsResult []) (Some [Field.mk "id" (Some 3%Z) (Some 11%Z)]))
        "SELECT id FROM t WHERE 1 = 0" false []
      = (Returned (json_text payload), [PoolExecute "SELECT id FROM t WHERE 1 = 0" []]) /\
    get_prop payload "success" = Some (VBool true) /\
    get_prop payload "affectedRows" = Some (VNumber 0) /\
    get_prop payload "insertId" = None /\
    get_prop payload "changedRows" = None /\
    get_prop payload "warningCount" = None /\
    get_prop payload "data" = None /\
    get_prop payload "rowCount" = None /\
    get_prop payload "fieldCount" = Some (VNumber 1) /\
    get_prop payload "fields" =
      Some (VArray (map field_summary [Field.mk "id" (Some 3%Z) (Some 11%Z)])).
Proof.
  apply (execute_sql_rows_envelope
           (resolving_pool (RowsResult []) (Some [Field.mk "id" (Some 3%Z) (Some 11%Z)]))
           "SELECT id FROM t WHERE 1 = 0" false []
           [PoolExecute "SELECT id FROM t WHERE 1 = 0" []]
           [] (Some [Field.mk "id" (Some 3%Z) (Some 11%Z)]));
    [right; split; reflexivity | reflexivity].
Defined.

Lemma since_same (w : World) : since w w = [].
Proof.
  rewrite <- (app_nil_r w) at 2. apply since_app.
Qed.

Lemma executeWithRetry_sent (pool : Pool) (sql : string) (params : list JsValue) (w : World) :
  exists n,
    1 <= n <= default_retries /\
    calls (since w (snd (executeWithRetry pool sql params default_retries w)))
      = repeat (sql, params) n.
Proof.
  destruct (executeWithRetry_events pool sql params w) as (evs & Hw & n & Hc & Hn).
  exists n. rewrite Hw, since_app. split; assumption.
Qed.

(** X7. Whatever [query_database] and [execute_sql] send to the driver is
    the caller's SQL text, character for character (not the trimmed or
    upper-cased text the gates look at), with an empty parameter list, and
    they send it at most twice. *)
Theorem sql_tools_send_only_the_callers_text
    (pool : Pool) (sql : string) (confirm : bool) (w : World) :
  (exists n, n <= default_retries /\
             calls (since w (snd (query_database pool sql w))) = repeat (sql, []) n) /\
  (exists n, n <= default_retries /\
             calls (since w (snd (execute_sql pool sql confirm w))) = repeat (sql, []) n).
Proof.
  split.
  - destruct (begins_with_any read_only_keywords sql) eqn:Hgate.
    + rewrite (query_database_trace pool sql w Hgate).
      destruct (executeWithRetry_sent pool sql [] w) as (n & Hn & Hc).
      exists n. split; [lia | exact Hc].
    + exists 0. split; [lia|].
      assert (Hw : snd (query_database pool sql w) = w).
      { revert Hgate. unfold begins_with_any, read_only_keywords. cbn [existsb].
        rewrite orb_false_r. intros H.
        apply orb_false_elim in H. destruct H as [Hselect H].
        apply orb_false_elim in H. destruct H as [Hshow H].
        apply orb_false_elim in H. destruct H as [Hdescribe Hexplain].
        unfold query_database, tryCatch, bind.
        rewrite Hselect, Hshow, Hdescribe, Hexplain. reflexivity. }
      rewrite Hw, since_same. reflexivity.
  - destruct (isDangerous (toUpperCase (trim sql)) && negb confirm) eqn:Hgate.
    + exists 0. split; [lia|].
      unfold execute_sql, tryCatch. rewrite Hgate. cbn.
      rewrite since_same. reflexivity.
    + rewrite (execute_sql_ungated_trace pool sql confirm w Hgate).
      destruct (executeWithRetry_sent pool sql [] w) as (n & Hn & Hc).
      exists n. split; [lia | exact Hc].
Qed.

(** X8. With [confirm = true] no statement is held back: whatever its
    text, [execute_sql] sends it to the pool, and its answer is a success
    or a failure envelope, without [requiresConfirmation]. *)
Theorem execute_sql_confirmed_always_executes (pool : Pool) (sql : string) (w : World) :
  (exists evs, snd (execute_sql pool sql true w) = w ++ PoolExecute sql [] :: evs) /\
  (exists payload,
     fst (execute_sql pool sql true w) = Returned (json_text payload) /\
     get_prop payload "requiresConfirmation" = None).
Proof.
  assert (Hgate : isDangerous (toUpperCase (trim sql)) && negb true = false)
    by apply andb_false_r.
  split.
  - rewrite (execute_sql_ungated_trace pool sql true w Hgate).
    destruct (executeWithRetry_events pool sql [] w) as (evs & Hw & _).
    exists evs. exact Hw.
  - rewrite (execute_sql_ungated pool sql true w Hgate).
    unfold tryCatch, bind.
    destruct (executeWithRetry pool sql [] default_retries w) as [[[rf|]|e] w'];
      cbn.
    + exists (responseData sql (fst rf) (snd rf)). split; [reflexivity|].
      unfold responseData.
      destruct (truthy (read_header insertId (fst rf)));
        destruct (read_header changedRows (fst rf));
        destruct (truthy (read_header warningCount (fst rf)) &&
                  gt_zero (read_header warningCount (fst rf)));
        destruct (fst rf) as [rows|h];
        try destruct (0 <? List.length rows);
        destruct (snd rf) as [fs|];
        try destruct (0 <? List.length fs);
        reflexivity.
    + eexists. split; reflexivity.
    + eexists. split; reflexivity.
Qed.

(** ** Trimming and upper-casing *)

Lemma isWhiteSpace_toUpperChar (c : ascii) : isWhiteSpace (toUpperChar c) = isWhiteSpace c.
Proof.
  destruct c as [[] [] [] [] [] [] [] []]; reflexivity.
Qed.

Lemma trimStart_toUpperCase (s : string) :
  trimStart (toUpperCase s) = toUpperCase (trimStart s).
Proof.
  induction s as [|c s IH]; simpl; [reflexivity|].
  rewrite isWhiteSpace_toUpperChar.
  destruct (isWhiteSpace c); [exact IH | reflexivity].
Qed.

Lemma trimEnd_toUpperCase (s : string) :
  trimEnd (toUpperCase s) = toUpperCase (trimEnd s).
Proof.
  induction s as [|c s IH]; simpl; [reflexivity|].
  rewrite IH, isWhiteSpace_toUpperChar.
  destruct (trimEnd s); simpl; [destruct (isWhiteSpace c)|]; reflexivity.
Qed.

Lemma trim_toUpperCase (s : string) : trim (toUpperCase s) = toUpperCase (trim s).
Proof.
  unfold trim. rewrite trimStart_toUpperCase. apply trimEnd_toUpperCase.
Qed.

Lemma all_whitespace_cons (c : ascii) (s : string) :
  all_whitespace (String c s) = isWhiteSpace c && all_whitespace s.
Proof.
  reflexivity.
Qed.

Lemma trimStart_all_whitespace (s : string) :
  all_whitespace s = true -> trimStart s = EmptyString.
Proof.
  induction s as [|c s IH]; [reflexivity|].
  rewrite all_whitespace_cons. intros H.
  apply andb_prop in H. destruct H as [Hc Hs].
  simpl. rewrite Hc. exact (IH Hs).
Qed.

Lemma trimEnd_all_whitespace (s : string) :
  all_whitespace s = true -> trimEnd s = EmptyString.
Proof.
  induction s as [|c s IH]; [reflexivity|].
  rewrite all_whitespace_cons. intros H.
  apply andb_prop in H. destruct H as [Hc Hs].
  simpl. rewrite (IH Hs), Hc. reflexivity.
Qed.

Lemma trim_all_whitespace (s : string) :
  all_whitespace s = true -> trim s = EmptyString.
Proof.
  intros H. unfold trim. rewrite (trimStart_all_whitespace s H). reflexivity.
Qed.

Lemma trimStart_padding (pad s : string) :
  all_whitespace pad = true -> trimStart (pad ++ s)%string = trimStart s.
Proof.
  induction pad as [|c pad IH]; [reflexivity|].
  rewrite all_whitespace_cons. intros H.
  apply andb_prop in H. destruct H as [Hc Hp].
  simpl. rewrite Hc. exact (IH Hp).
Qed.

Lemma trimEnd_padding (s pad : string) :
  all_whitespace pad = true -> trimEnd (s ++ pad)%string = trimEnd s.
Proof.
  intros H. induction s as [|c s IH]; simpl.
  - apply trimEnd_all_whitespace. exact H.
  - rewrite IH. reflexivity.
Qed.

Lemma trim_padding (left s right : string) :
  all_whitespace left = true -> all_whitespace right = true ->
  trim (left ++ s ++ right)%string = trim s.
Proof.
  intros Hl Hr. unfold trim. rewrite (trimStart_padding left _ Hl).
  induction s as [|c s IH]; simpl.
  - rewrite (trimStart_all_whitespace right Hr). reflexivity.
  - destruct (isWhiteSpace c); [exact IH|].
    change (String c (s ++ right)%string) with (String c s ++ right)%string.
    apply trimEnd_padding. exact Hr.
Qed.

(** X10. The gates cannot be side-stepped by letter case or by white space
    around the statement: two texts that are equal up to letter case, one
    of them padded with white space on either side, have the same trimmed,
    upper-cased form, so they begin with the same keywords and the
    confirmation gate treats them alike. *)
Theorem gates_ignore_case_and_padding (sql sql' left right : string) :
  toUpperCase sql' = toUpperCase sql ->
  all_whitespace left = true ->
  all_whitespace right = true ->
  toUpperCase (trim (left ++ sql' ++ right)%string) = toUpperCase (trim sql) /\
  (forall keywords,
     begins_with_any keywords (left ++ sql' ++ right)%string
       = begins_with_any keywords sql) /\
  (forall pool confirm w,
     fst (execute_sql pool (left ++ sql' ++ right)%string confirm w)
       = Returned (json_text (confirmation_envelope (left ++ sql' ++ right)%string)) <->
     fst (execute_sql pool sql confirm w)
       = Returned (json_text (confirmation_envelope sql))).
Proof.
  intros Hcase Hl Hr.
  assert (Htext : toUpperCase (trim (left ++ sql' ++ right)%string)
                  = toUpperCase (trim sql)).
  { rewrite (trim_padding left sql' right Hl Hr).
    rewrite <- !trim_toUpperCase. rewrite Hcase. reflexivity. }
  split; [exact Htext|]. split.
  - intros keywords. unfold begins_with_any. rewrite Htext. reflexivity.
  - assert (Hfires : forall pool s confirm w,
               fst (execute_sql pool s confirm w)
                 = Returned (json_text (confirmation_envelope s)) <->
               isDangerous (toUpperCase (trim s)) && negb confirm = true).
    { intros pool s confirm w. split.
      - intros Hresp.
        destruct (isDangerous (toUpperCase (trim s)) && negb confirm) eqn:Hgate;
          [reflexivity|].
        exfalso. rewrite (execute_sql_ungated pool s confirm w Hgate) in Hresp.
        unfold tryCatch, bind in Hresp.
        destruct (executeWithRetry pool s [] default_retries w) as [[[rf|]|e] w'];
          cbn in Hresp; try discriminate Hresp.
        injection Hresp as Hresp. revert Hresp. unfold responseData.
        destruct (truthy (read_header insertId (fst rf)));
          destruct (read_header changedRows (fst rf));
          destruct (truthy (read_header warningCount (fst rf)) &&
                    gt_zero (read_header warningCount (fst rf)));
          destruct (fst rf) as [rows|h];
          try destruct (0 <? List.length rows);
          destruct (snd rf) as [fs|];
          try destruct (0 <? List.length fs);
          discriminate.
      - intros Hgate. unfold execute_sql, tryCatch. rewrite Hgate. reflexivity. }
    intros pool confirm w. rewrite !Hfires, Htext. reflexivity.
Qed.

Lemma gates_ignore_case_and_padding_witness :
  toUpperCase (trim ("  " ++ "Delete From t" ++ " ")%string)
    = toUpperCase (trim "DELETE FROM T") /\
  (forall keywords,
     begins_with_any keywords ("  " ++ "Delete From t" ++ " ")%string
       = begins_with_any keywords "DELETE FROM T") /\
  (forall pool confirm w,
     fst (execute_sql pool ("  " ++ "Delete From t" ++ " ")%string confirm w)
       = Returned (json_text
                     (confirmation_envelope ("  " ++ "Delete From t" ++ " ")%string)) <->
     fst (execute_sql pool "DELETE FROM T" confirm w)
       = Returned (json_text (confirmation_envelope "DELETE FROM T"))).
Proof.
  apply (gates_ignore_case_and_padding "DELETE FROM T" "Delete From t" "  " " ");
    reflexivity.
Defined.

(** X11. A statement that is empty or consists of white space only is
    refused by [query_database] with the policy error, without a call to
    the pool; [execute_sql] does not refuse it: it sends the text to the
    pool as it is, also with [confirm = false]. *)
Theorem blank_statement (pool : Pool) (sql : string) (w : World) :
  all_whitespace sql = true ->
  query_database pool sql w =
    (Returned
       (json_text
          [ ("error", VBool true);
            ("message",
              VString
                "Only SELECT, SHOW, DESCRIBE, and EXPLAIN queries are allowed with this tool");
            ("code", VString "SQL_ERROR");
            ("sql", VString sql) ]),
     w) /\
  exists evs, snd (execute_sql pool sql false w) = w ++ PoolExecute sql [] :: evs.
Proof.
  intros Hblank.
  assert (Htext : toUpperCase (trim sql) = EmptyString)
    by (rewrite (trim_all_whitespace sql Hblank); reflexivity).
  split.
  - unfold query_database, tryCatch, bind. rewrite Htext. reflexivity.
  - rewrite execute_sql_ungated_trace by (rewrite Htext; reflexivity).
    destruct (executeWithRetry_events pool sql [] w) as (evs & Hw & _).
    exists evs. exact Hw.
Qed.

Lemma blank_statement_witness :
  query_database (resolving_pool (RowsResult []) None) "   " [] =
    (Returned
       (json_text
          [ ("error", VBool true);
            ("message",
              VString
                "Only SELECT, SHOW, DESCRIBE, and EXPLAIN queries are allowed with this tool");
            ("code", VString "SQL_ERROR");
            ("sql", VString "   ") ]),
     []) /\
  exists evs,
    snd (execute_sql (resolving_pool (RowsResult []) None) "   " false [])
      = [] ++ PoolExecute "   " [] :: evs.
Proof.
  apply (blank_statement (resolving_pool (RowsResult []) None) "   " []).
  reflexivity.
Defined.

(** ** [list_tables] and [show_databases] *)

Lemma array_map_pure (f : JsValue -> Async JsValue) (g : JsValue -> JsValue)
    (items : list JsValue) (w : World) :
  (forall x w0, In x items -> f x w0 = (Returned (g x), w0)) ->
  array_map f items w = (Returned (map g items), w).
Proof.
  induction items as [|x items IH]; intros Hf; simpl; [reflexivity|].
  unfold bind. rewrite (Hf x w (or_introl eq_refl)).
  rewrite IH by (intros y w0 Hy; apply Hf; right; exact Hy).
  reflexivity.
Qed.

(** X12. When the pool answers [SHOW TABLES] at once with one object per
    table, [list_tables] makes that single call and returns
    [success: true], the first value of every row as [tables], in the
    driver's row order, and the number of rows as [count].  A row without
    any property contributes [undefined]. *)
Theorem list_tables_first_values
    (pool : Pool) (w : World) (rows : list JsObject) (fields : Fields) :
  execute pool w "SHOW TABLES" [] = Resolved (RowsResult (map VObject rows)) fields ->
  list_tables pool w =
    (Returned
       (json_text
          [ ("success", VBool true);
            ("tables", VArray (map (fun row => match row with
                                               | [] => VUndefined
                                               | (_, v) :: _ => v
                                               end) rows));
            ("count", VNumber (Z.of_nat (List.length rows))) ]),
     w ++ [PoolExecute "SHOW TABLES" []]).
Proof.
  intros Hreply.
  unfold list_tables, tryCatch, bind, executeWithRetry, default_retries.
  cbn [retry_loop]. unfold tryCatch, bind, pool_execute. rewrite Hreply. cbn.
  rewrite (array_map_pure _ (fun row => match row with
                                        | VObject ((_, v) :: _) => v
                                        | _ => VUndefined
                                        end)).
  - cbn. rewrite !map_map, length_map. reflexivity.
  - intros x w0 Hx. apply in_map_iff in Hx. destruct Hx as (row & <- & _).
    destruct row as [|[k v] row]; reflexivity.
Qed.

Lemma list_tables_first_values_witness :
  list_tables
      (resolving_pool
         (RowsResult (map VObject [ [("Tables_in_shop", VString "alpha")];
                                    [("Tables_in_shop", VString "beta")] ])) None) [] =
    (Returned
       (json_text
          [ ("success", VBool true);
            ("tables", VArray [VString "alpha"; VString "beta"]);
            ("count", VNumber 2) ]),
     [] ++ [PoolExecute "SHOW TABLES" []]).
Proof.
  apply (list_tables_first_values
           (resolving_pool
              (RowsResult (map VObject [ [("Tables_in_shop", VString "alpha")];
                                         [("Tables_in_shop", VString "beta")] ])) None)
           []
           [ [("Tables_in_shop", VString "alpha")]; [("Tables_in_shop", VString "beta")] ]
           None).
  reflexivity.
Defined.

(** X13. When the pool answers [SHOW DATABASES] at once with one object per
    database, [show_databases] returns the [Database] property of every
    row, in row order, and the number of rows as [count].  A row that has
    no [Database] property still counts and contributes [undefined]. *)
Theorem show_databases_names
    (pool : Pool) (w : World) (rows : list JsObject) (fields : Fields) :
  execute pool w "SHOW DATABASES" [] = Resolved (RowsResult (map VObject rows)) fields ->
  show_databases pool w =
    (Returned
       (json_text
          [ ("success", VBool true);
            ("databases", VArray (map (fun row => match get_prop row "Database" with
                                                  | Some v => v
                                                  | None => VUndefined
                                                  end) rows));
            ("count", VNumber (Z.of_nat (List.length rows))) ]),
     w ++ [PoolExecute "SHOW DATABASES" []]).
Proof.
  intros Hreply.
  unfold show_databases, tryCatch, bind, executeWithRetry, default_retries.
  cbn [retry_loop]. unfold tryCatch, bind, pool_execute. rewrite Hreply. cbn.
  rewrite (array_map_pure _ (fun row => match row with
                                        | VObject props =>
                                            match get_prop props "Database" with
                                            | Some v => v
                                            | None => VUndefined
                                            end
                                        | _ => VUndefined
                                        end)).
  - cbn. rewrite !map_map, length_map. reflexivity.
  - intros x w0 Hx. apply in_map_iff in Hx. destruct Hx as (row & <- & _).
    reflexivity.
Qed.

Lemma show_databases_names_witness :
  show_databases
      (resolving_pool
         (RowsResult (map VObject [ [("Database", VString "shop")];
                                    [("database", VString "test")] ])) None) [] =
    (Returned
       (json_text
          [ ("success", VBool true);
            ("databases", VArray [VString "shop"; VUndefined]);
            ("count", VNumber 2) ]),
     [] ++ [PoolExecute "SHOW DATABASES" []]).
Proof.
  apply (show_databases_names
           (resolving_pool
              (RowsResult (map VObject [ [("Database", VString "shop")];
                                         [("database", VString "test")] ])) None)
           []
           [ [("Database", VString "shop")]; [("database", VString "test")] ]
           None).
  reflexivity.
Defined.

(** [Object.values(null)] throws, and [map] passes the error on. *)
Lemma first_values_null_row (rows : list JsValue) :
  In VNull rows ->
  forall w0, exists msg,
    array_map (fun row => values <- Object_values row ;; ret (hd VUndefined values))
      rows w0 = (Thrown (new_Error msg), w0).
Proof.
  induction rows as [|x rows IH]; intros Hin w0; [contradiction|].
  cbn [array_map]. unfold bind in *.
  destruct (Object_values x w0) as [[values|e] w1] eqn:Hx.
  - assert (Hw1 : w1 = w0)
      by (destruct x; unfold Object_values, ret, throw in Hx; congruence).
    subst w1. unfold ret at 1.
    destruct Hin as [Hhead|Htail];
      [subst x; discriminate Hx|].
    destruct (IH Htail w0) as [msg Hmsg].
    exists msg. rewrite Hmsg. reflexivity.
  - destruct x; unfold Object_values, ret, throw in Hx; try discriminate Hx;
      injection Hx as <- <-; eexists; reflexivity.
Qed.

(** X14. A result that is not an array, or an array that holds a [null]
    row, makes [list_tables] answer with an error envelope whose code is
    [SQL_ERROR]; the statement was sent once and is not retried, because
    the failure happens after the executor has returned. *)
Theorem list_tables_unexpected_shape
    (pool : Pool) (w : World) (result : DriverResult) (fields : Fields) :
  execute pool w "SHOW TABLES" [] = Resolved result fields ->
  match result with
  | HeaderResult _ => True
  | RowsResult rows => In VNull rows
  end ->
  exists msg,
    list_tables pool w =
      (Returned (json_text [ ("error", VBool true);
                             ("message", VString msg);
                             ("code", VString "SQL_ERROR") ]),
       w ++ [PoolExecute "SHOW TABLES" []]).
Proof.
  intros Hreply Hshape.
  unfold list_tables, tryCatch, bind, executeWithRetry, default_retries.
  cbn [retry_loop]. unfold tryCatch, bind, pool_execute. rewrite Hreply. cbn.
  destruct result as [rows|h]; cbn.
  - destruct (first_values_null_row rows Hshape (w ++ [PoolExecute "SHOW TABLES" []]))
      as [msg Hmsg].
    unfold bind in Hmsg.
    exists msg. rewrite Hmsg. reflexivity.
  - eexists. reflexivity.
Qed.

Lemma list_tables_unexpected_shape_witness :
  exists msg,
    list_tables (resolving_pool one_row_changed None) [] =
      (Returned (json_text [ ("error", VBool true);
                             ("message", VString msg);
                             ("code", VString "SQL_ERROR") ]),
       [] ++ [PoolExecute "SHOW TABLES" []]).
Proof.
  apply (list_tables_unexpected_shape
           (resolving_pool one_row_changed None) [] one_row_changed None).
  - reflexivity.
  - exact I.
Defined.

(** ** [server_info] *)

Lemma tryCatch_trace {A : Type} (body : Async A) (h : JsError -> A) (w : World) :
  snd (tryCatch body (fun error => ret (h error)) w) = snd (body w).
Proof.
  unfold tryCatch, ret.
  destruct (body w) as [[a|e] w']; reflexivity.
Qed.

Lemma executeWithRetry_run (pool : Pool) (sql : string) (params : list JsValue) (w : World) :
  exists c evs n,
    executeWithRetry pool sql params default_retries w = (c, w ++ evs) /\
    calls evs = repeat (sql, params) n /\
    1 <= n <= default_retries.
Proof.
  destruct (executeWithRetry_events pool sql params w) as (evs & Hw & n & Hc & Hn).
  exists (fst (executeWithRetry pool sql params default_retries w)),
         (PoolExecute sql params :: evs), n.
  split; [|split; assumption].
  rewrite <- Hw. apply surjective_pairing.
Qed.

Lemma member_run (v : JsValue) (key : string) (w : World) :
  exists c, member v key w = (c, w).
Proof.
  destruct v; eexists; reflexivity.
Qed.

Lemma destructure_run {w : World} (r : option (DriverResult * Fields)) :
  exists c, destructure r w = (c, w).
Proof.
  destruct r; eexists; reflexivity.
Qed.

(** X15. [server_info] sends only its three fixed statements, without
    parameters, in the order version, uptime, current database, each at
    most twice; the version statement is always sent, and a later statement
    is sent only if every earlier one was. *)
Theorem server_info_statement_order (pool : Pool) (config : Config) (w : World) :
  exists n1 n2 n3,
    calls (since w (snd (server_info pool config w)))
      = repeat (version_sql, []) n1
        ++ repeat (uptime_sql, []) n2
        ++ repeat (current_database_sql, []) n3 /\
    1 <= n1 <= default_retries /\
    n2 <= default_retries /\
    n3 <= default_retries /\
    (n2 = 0 -> n3 = 0).
Proof.
  unfold server_info.
  rewrite (tryCatch_trace _ (fun error => json_text (plain_failure_envelope error))).
  unfold bind.
  destruct (executeWithRetry_run pool version_sql [] w) as (c1 & evs1 & n1 & H1 & Hc1 & Hn1).
  rewrite H1.
  assert (Hstop : calls (since w (w ++ evs1))
                  = repeat (version_sql, []) n1 ++ repeat (uptime_sql, []) 0
                    ++ repeat (current_database_sql, []) 0)
    by (rewrite since_app, Hc1, app_nil_r; reflexivity).
  destruct c1 as [[versionRows|]|e1]; cbn [destructure ret throw fst snd];
    try (exists n1, 0, 0; repeat split; auto; lia).
  destruct (executeWithRetry_run pool uptime_sql [] (w ++ evs1))
    as (c2 & evs2 & n2 & H2 & Hc2 & Hn2).
  rewrite H2.
  assert (Hstop2 : calls (since w ((w ++ evs1) ++ evs2))
                   = repeat (version_sql, []) n1 ++ repeat (uptime_sql, []) n2
                     ++ repeat (current_database_sql, []) 0)
    by (rewrite <- app_assoc, since_app, calls_app, Hc1, Hc2, app_nil_r; reflexivity).
  destruct c2 as [[statusRows|]|e2]; cbn [destructure ret throw fst snd];
    try (exists n1, n2, 0; repeat split; auto; lia).
  destruct (executeWithRetry_run pool current_database_sql [] ((w ++ evs1) ++ evs2))
    as (c3 & evs3 & n3 & H3 & Hc3 & Hn3).
  rewrite H3.
  assert (Hall : calls (since w (((w ++ evs1) ++ evs2) ++ evs3))
                 = repeat (version_sql, []) n1 ++ repeat (uptime_sql, []) n2
                   ++ repeat (current_database_sql, []) n3)
    by (rewrite <- !app_assoc, since_app, !calls_app, Hc1, Hc2, Hc3; reflexivity).
  exists n1, n2, n3.
  split; [|repeat split; auto; lia].
  rewrite <- Hall. f_equal. f_equal.
  destruct c3 as [[dbRows|]|e3]; cbn [destructure ret throw fst snd]; try reflexivity.
  destruct (member_run (first_row (fst versionRows)) "version"
              (((w ++ evs1) ++ evs2) ++ evs3)) as [[v|e] ->]; [|reflexivity].
  destruct (member_run (first_row (fst statusRows)) "Value"
              (((w ++ evs1) ++ evs2) ++ evs3)) as [[u|e] ->]; [|reflexivity].
  destruct (member_run (first_row (fst dbRows)) "current_database"
              (((w ++ evs1) ++ evs2) ++ evs3)) as [[d|e] ->]; reflexivity.
Qed.

Lemma executeWithRetry_first_try
    (pool : Pool) (sql : string) (params : list JsValue) (w : World)
    (result : DriverResult) (fields : Fields) :
  execute pool w sql params = Resolved result fields ->
  executeWithRetry pool sql params default_retries w
    = (Returned (Some (result, fields)), w ++ [PoolExecute sql params]).
Proof.
  intros H. unfold executeWithRetry, default_retries. cbn [retry_loop].
  unfold tryCatch, bind, pool_execute. rewrite H. reflexivity.
Qed.

(** X16. When each of the three statements is answered at once,
    [server_info] makes exactly three calls and reads the first row of each
    answer.  If every first row is an object, the envelope holds the
    [version], [Value] and [current_database] properties of those rows
    ([undefined] where a property is missing) next to [host], [port] and
    [user] of the configuration; password, database name and charset of
    the configuration do not appear in it. *)
Theorem server_info_envelope
    (pool : Pool) (config : Config) (w : World)
    (vrow srow drow : JsObject) (vrest srest drest : list JsValue) (f1 f2 f3 : Fields) :
  execute pool w version_sql [] = Resolved (RowsResult (VObject vrow :: vrest)) f1 ->
  execute pool (w ++ [PoolExecute version_sql []]) uptime_sql []
    = Resolved (RowsResult (VObject srow :: srest)) f2 ->
  execute pool (w ++ [PoolExecute version_sql []; PoolExecute uptime_sql []])
      current_database_sql []
    = Resolved (RowsResult (VObject drow :: drest)) f3 ->
  server_info pool config w =
    (Returned
       (json_text
          [ ("success", VBool true);
            ("server",
              VObject [ ("version", lookup_or_undefined vrow "version");
                        ("uptime", lookup_or_undefined srow "Value");
                        ("currentDatabase", lookup_or_undefined drow "current_database");
                        ("host", VString (host config));
                        ("port", VNumber (port config));
                        ("user", VString (user config)) ]) ]),
     w ++ [ PoolExecute version_sql [];
            PoolExecute uptime_sql [];
            PoolExecute current_database_sql [] ]).
Proof.
  intros H1 H2 H3.
  unfold server_info, tryCatch, bind.
  rewrite (executeWithRetry_first_try _ _ _ _ _ _ H1). cbn [destructure]. unfold ret at 1.
  rewrite (executeWithRetry_first_try _ _ _ _ _ _ H2). cbn [destructure]. unfold ret at 1.
  rewrite <- app_assoc. cbn [app].
  rewrite (executeWithRetry_first_try _ _ _ _ _ _ H3). cbn [destructure]. unfold ret at 1.
  rewrite <- app_assoc. reflexivity.
Qed.

Lemma server_info_envelope_witness :
  server_info (scripted_pool server_answers) sample_config [] =
    (Returned
       (json_text
          [ ("success", VBool true);
            ("server",
              VObject [ ("version",
                          lookup_or_undefined [("version", VString "11.4.2-MariaDB")]
                            "version");
                        ("uptime",
                          lookup_or_undefined [("Variable_name", VString "Uptime");
                                               ("Value", VString "86400")] "Value");
                        ("currentDatabase",
                          lookup_or_undefined [("current_database", VNull)]
                            "current_database");
                        ("host", VString (host sample_config));
                        ("port", VNumber (port sample_config));
                        ("user", VString (user sample_config)) ]) ]),
     [] ++ [ PoolExecute version_sql [];
             PoolExecute uptime_sql [];
             PoolExecute current_database_sql [] ]).
Proof.
  apply (server_info_envelope (scripted_pool server_answers) sample_config []
           [("version", VString "11.4.2-MariaDB")]
           [("Variable_name", VString "Uptime"); ("Value", VString "86400")]
           [("current_database", VNull)]
           [] [] [] None None None);
    reflexivity.
Defined.

(** X17. When the three statements are answered at once but one of the
    answers has no first row (an empty array, or a header instead of an
    array), [server_info] still sends all three statements and then
    answers with an error envelope whose code is [SQL_ERROR]. *)
Theorem server_info_empty_answer
    (pool : Pool) (config : Config) (w : World)
    (r1 r2 r3 : DriverResult) (f1 f2 f3 : Fields) :
  execute pool w version_sql [] = Resolved r1 f1 ->
  execute pool (w ++ [PoolExecute version_sql []]) uptime_sql [] = Resolved r2 f2 ->
  execute pool (w ++ [PoolExecute version_sql []; PoolExecute uptime_sql []])
      current_database_sql [] = Resolved r3 f3 ->
  first_row r1 = VUndefined \/ first_row r2 = VUndefined \/ first_row r3 = VUndefined ->
  exists msg,
    server_info pool config w =
      (Returned (json_text [ ("error", VBool true);
                             ("message", VString msg);
                             ("code", VString "SQL_ERROR") ]),
       w ++ [ PoolExecute version_sql [];
              PoolExecute uptime_sql [];
              PoolExecute current_database_sql [] ]).
Proof.
  intros H1 H2 H3 Hempty.
  unfold server_info, tryCatch, bind.
  rewrite (executeWithRetry_first_try _ _ _ _ _ _ H1). cbn [destructure]. unfold ret at 1.
  rewrite (executeWithRetry_first_try _ _ _ _ _ _ H2). cbn [destructure]. unfold ret at 1.
  rewrite <- app_assoc. cbn [app].
  rewrite (executeWithRetry_first_try _ _ _ _ _ _ H3). cbn [destructure]. unfold ret at 1.
  rewrite <- app_assoc. cbn [app fst].
  destruct (first_row r1) eqn:E1; cbn; try (eexists; reflexivity);
    destruct (first_row r2) eqn:E2; cbn; try (eexists; reflexivity);
    destruct (first_row r3) eqn:E3; cbn; try (eexists; reflexivity);
    destruct Hempty as [H|[H|H]]; discriminate H.
Qed.

Lemma server_info_empty_answer_witness :
  exists msg,
    server_info (resolving_pool (RowsResult []) None) sample_config [] =
      (Returned (json_text [ ("error", VBool true);
                             ("message", VString msg);
                             ("code", VString "SQL_ERROR") ]),
       [] ++ [ PoolExecute version_sql [];
               PoolExecute uptime_sql [];
               PoolExecute current_database_sql [] ]).
Proof.
  apply (server_info_empty_answer (resolving_pool (RowsResult []) None) sample_config []
           (RowsResult []) (RowsResult []) (RowsResult []) None None None);
    try reflexivity.
  left. reflexivity.
Defined.

(** ** What the confirmation gate does not see *)

(** X18. The confirmation gate looks at the first character after the
    leading white space only through the four keywords: a statement of
    7-bit characters whose first such character is none of D, U and T in
    either case is never held back, whatever follows.  A DELETE behind a leading comment or
    parenthesis is therefore executed with [confirm = false]. *)
Theorem gate_needs_keyword_at_start
    (pool : Pool) (sql : string) (c : ascii) (rest : string) (w : World) :
  is_7bit sql = true ->
  trim sql = String c rest ->
  toUpperChar c <> "D"%char ->
  toUpperChar c <> "U"%char ->
  toUpperChar c <> "T"%char ->
  execute_sql pool sql false w = execute_sql pool sql true w /\
  exists evs, snd (execute_sql pool sql false w) = w ++ PoolExecute sql [] :: evs.
Proof.
  intros _ Htrim HD HU HT.
  assert (Hsafe : isDangerous (toUpperCase (trim sql)) = false).
  { rewrite Htrim. unfold isDangerous. cbn.
    destruct (Ascii.eqb_spec (toUpperChar c) "D"); [contradiction|].
    destruct (Ascii.eqb_spec (toUpperChar c) "U"); [contradiction|].
    destruct (Ascii.eqb_spec (toUpperChar c) "T"); [contradiction|].
    reflexivity. }
  destruct (execute_sql_not_dangerous pool sql w Hsafe) as (Hsame & Hsent & _).
  split; assumption.
Qed.

Lemma gate_needs_keyword_at_start_witness :
  execute_sql (resolving_pool one_row_changed None) "/* tidy */ DELETE FROM t" false []
    = execute_sql (resolving_pool one_row_changed None) "/* tidy */ DELETE FROM t" true [] /\
  exists evs,
    snd (execute_sql (resolving_pool one_row_changed None)
           "/* tidy */ DELETE FROM t" false [])
      = [] ++ PoolExecute "/* tidy */ DELETE FROM t" [] :: evs.
Proof.
  apply (gate_needs_keyword_at_start
           (resolving_pool one_row_changed None) "/* tidy */ DELETE FROM t"
           "/"%char "* tidy */ DELETE FROM t" []);
    [reflexivity | reflexivity | discriminate | discriminate | discriminate].
Defined.

(** ** Start-up diagnostics *)

(** X19. The diagnostic built when the pool cannot be opened depends on the
    password only through whether one is set: two configurations that
    differ in nothing but the value of a non-empty password, or of which
    both have an empty one, give the same text.  The password itself is
    not part of the message. *)
Theorem errorDetails_hides_password (config : Config) (pw1 pw2 msg : string) :
  nonempty pw1 = nonempty pw2 ->
  errorDetails (with_password config pw1) msg = errorDetails (with_password config pw2) msg.
Proof.
  intros H. unfold errorDetails, with_password, database_set.
  cbn [host port user password database charset].
  rewrite H. reflexivity.
Qed.

Lemma errorDetails_hides_password_witness :
  errorDetails (with_password sample_config "s3cret") "connect ECONNREFUSED"
    = errorDetails (with_password sample_config "hunter2") "connect ECONNREFUSED".
Proof.
  apply (errorDetails_hides_password sample_config "s3cret" "hunter2" "connect ECONNREFUSED").
  reflexivity.
Defined.

(** ** Merging [mcp.json] over the defaults *)

Lemma get_prop_set_prop_same (obj : JsObject) (key : string) (v : JsValue) :
  get_prop (set_prop obj key v) key = Some v.
Proof.
  induction obj as [|[k v0] obj IH]; simpl.
  - rewrite String.eqb_refl. reflexivity.
  - destruct (String.eqb k key) eqn:E; simpl; rewrite E; [reflexivity | exact IH].
Qed.

Lemma get_prop_set_prop_other (obj : JsObject) (key key' : string) (v : JsValue) :
  key <> key' ->
  get_prop (set_prop obj key v) key' = get_prop obj key'.
Proof.
  intros Hne. induction obj as [|[k v0] obj IH]; simpl.
  - destruct (String.eqb_spec key key'); [contradiction | reflexivity].
  - destruct (String.eqb_spec k key) as [->|Hk]; simpl.
    + destruct (String.eqb_spec key key'); [contradiction | reflexivity].
    + destruct (String.eqb k key'); [reflexivity | exact IH].
Qed.

Lemma get_prop_absent (obj : JsObject) (key : string) :
  ~ In key (map fst obj) -> get_prop obj key = None.
Proof.
  induction obj as [|[k v] obj IH]; simpl; intros Hnot; [reflexivity|].
  destruct (String.eqb_spec k key) as [->|Hk].
  - exfalso. apply Hnot. left. reflexivity.
  - apply IH. intros Hin. apply Hnot. right. exact Hin.
Qed.

Lemma spread_lookup (base extra : JsObject) (key : string) :
  NoDup (map fst extra) ->
  get_prop (spread base extra) key =
    match get_prop extra key with
    | Some v => Some v
    | None => get_prop base key
    end.
Proof.
  unfold spread. revert base.
  induction extra as [|[k v] extra IH]; intros base Hnodup; simpl; [reflexivity|].
  inversion Hnodup as [|k0 l Hnotin Hrest]; subst.
  rewrite (IH _ Hrest).
  destruct (String.eqb_spec k key) as [->|Hk].
  - rewrite (get_prop_absent extra key Hnotin).
    apply get_prop_set_prop_same.
  - rewrite (get_prop_set_prop_other base k key v Hk). reflexivity.
Qed.

(** X20. For an [mcp.json] that holds an object (its keys are distinct),
    the configuration in effect has, for every key, the value from
    [mcp.json] when the file has the key, also when that value is [null] or
    an empty string, and the default otherwise; keys the defaults do not
    know are carried along. *)
Theorem merged_config_lookup (userConfig : JsObject) (key : string) :
  NoDup (map fst userConfig) ->
  get_prop (merged_config userConfig) key =
    match get_prop userConfig key with
    | Some v => Some v
    | None => get_prop DEFAULT_CONFIG key
    end.
Proof.
  intros Hnodup. unfold merged_config. apply spread_lookup. exact Hnodup.
Qed.

Lemma merged_config_lookup_witness :
  get_prop (merged_config [("user", VString "app"); ("password", VNull);
                           ("options", VObject [])]) "password" =
    match get_prop [("user", VString "app"); ("password", VNull);
                    ("options", VObject [])] "password" with
    | Some v => Some v
    | None => get_prop DEFAULT_CONFIG "password"
    end.
Proof.
  apply (merged_config_lookup
           [("user", VString "app"); ("password", VNull); ("options", VObject [])]
           "password").
  repeat constructor; simpl; intuition discriminate.
Defined.

(** ** The line-oriented front-end *)

(** X21. A line that is empty or holds white space only never reaches the
    database: whether or not a connection exists, [executeQuery] answers
    with an object that has the single property [error], and the trace is
    unchanged. *)
Theorem executeQuery_blank_line
    (connection : option LineFrontEnd.Connection) (query : string) (w : World) :
  all_whitespace query = true ->
  snd (LineFrontEnd.executeQuery connection query w) = w /\
  exists msg, fst (LineFrontEnd.executeQuery connection query w) = [("error", VString msg)].
Proof.
  intros Hblank. unfold LineFrontEnd.executeQuery.
  destruct connection as [conn|].
  - rewrite (trim_all_whitespace query Hblank). cbn.
    split; [reflexivity | eexists; reflexivity].
  - split; [reflexivity | eexists; reflexivity].
Qed.

Lemma executeQuery_blank_line_witness :
  snd (LineFrontEnd.executeQuery
         (Some (LineFrontEnd.mkConnection
                  (fun _ _ => LineFrontEnd.QueryResolved (RowsResult []) None)))
         "  " []) = [] /\
  exists msg,
    fst (LineFrontEnd.executeQuery
           (Some (LineFrontEnd.mkConnection
                    (fun _ _ => LineFrontEnd.QueryResolved (RowsResult []) None)))
           "  " []) = [("error", VString msg)].
Proof.
  apply (executeQuery_blank_line
           (Some (LineFrontEnd.mkConnection
                    (fun _ _ => LineFrontEnd.QueryResolved (RowsResult []) None)))
           "  " []).
  reflexivity.
Defined.

(** X22. With a connection and a line of 7-bit characters that is not
    blank, [executeQuery] calls the driver exactly once, with the trimmed line, whatever the
    statement is and whether the driver accepts or rejects it: this
    front-end has no confirmation gate and no retry.  A rejection comes
    back as an object whose [error] is the driver's message behind a fixed
    prefix, with the driver's [sqlState] and [errno]. *)
Theorem executeQuery_single_trimmed_call
    (conn : LineFrontEnd.Connection) (query : string) (w : World) :
  is_7bit query = true ->
  trim query <> EmptyString ->
  snd (LineFrontEnd.executeQuery (Some conn) query w) = w ++ [PoolExecute (trim query) []] /\
  forall error,
    LineFrontEnd.connection_execute conn w (trim query) = LineFrontEnd.QueryRejected error ->
    fst (LineFrontEnd.executeQuery (Some conn) query w) =
      [ ("error",
          VString ("Query execution failed: " ++ LineFrontEnd.failure_message error)%string);
        ("sqlState", LineFrontEnd.of_option_string (LineFrontEnd.sqlState error));
        ("errno", of_option_number (LineFrontEnd.errno error)) ].
Proof.
  intros _ Hne. unfold LineFrontEnd.executeQuery.
  destruct (String.eqb_spec (trim query) EmptyString) as [Heq|_]; [contradiction|].
  split.
  - destruct (LineFrontEnd.connection_execute conn w (trim query)); reflexivity.
  - intros error Hrej. rewrite Hrej. reflexivity.
Qed.

Lemma executeQuery_single_trimmed_call_witness :
  snd (LineFrontEnd.executeQuery
         (Some (LineFrontEnd.mkConnection
                  (fun _ _ => LineFrontEnd.QueryRejected
                                (LineFrontEnd.mkFailure "Table 'shop.t' does not exist"
                                   (Some "42S02") (Some 1146%Z)))))
         "  DELETE FROM t " [])
    = [] ++ [PoolExecute (trim "  DELETE FROM t ") []] /\
  forall error,
    LineFrontEnd.connection_execute
      (LineFrontEnd.mkConnection
         (fun _ _ => LineFrontEnd.QueryRejected
                       (LineFrontEnd.mkFailure "Table 'shop.t' does not exist"
                          (Some "42S02") (Some 1146%Z))))
      [] (trim "  DELETE FROM t ") = LineFrontEnd.QueryRejected error ->
    fst (LineFrontEnd.executeQuery
           (Some (LineFrontEnd.mkConnection
                    (fun _ _ => LineFrontEnd.QueryRejected
                                  (LineFrontEnd.mkFailure "Table 'shop.t' does not exist"
                                     (Some "42S02") (Some 1146%Z)))))
           "  DELETE FROM t " []) =
      [ ("error",
          VString ("Query execution failed: " ++ LineFrontEnd.failure_message error)%string);
        ("sqlState", LineFrontEnd.of_option_string (LineFrontEnd.sqlState error));
        ("errno", of_option_number (LineFrontEnd.errno error)) ].
Proof.
  apply (executeQuery_single_trimmed_call
           (LineFrontEnd.mkConnection
              (fun _ _ => LineFrontEnd.QueryRejected
                            (LineFrontEnd.mkFailure "Table 'shop.t' does not exist"
                               (Some "42S02") (Some 1146%Z))))
           "  DELETE FROM t " []);
    [reflexivity | discriminate].
Defined.

(** ** What the executor logs *)

Lemma retry_loop_logs
    (pool : Pool) (sql : string) (params : list JsValue) (retries : nat)
    (remaining attempt : nat) (w : World) :
  1 <= remaining ->
  attempt + remaining = retries + 1 ->
  exists evs n,
    snd (retry_loop pool sql params retries remaining attempt w) = w ++ evs /\
    List.length (calls evs) = n /\
    1 <= n /\
    logged_attempts evs =
      seq attempt (match fst (retry_loop pool sql params retries remaining attempt w) with
                   | Returned _ => n - 1
                   | Thrown _ => n
                   end).
Proof.
  revert attempt w.
  induction remaining as [|k IH]; intros attempt w Hpos Hinv; [lia|].
  simpl. unfold tryCatch, bind, pool_execute.
  destruct (execute pool w sql params) as [result fields|error]; simpl.
  - exists [PoolExecute sql params], 1. repeat split; auto.
  - unfold console_error, emit, bind. simpl.
    destruct (Nat.eqb_spec attempt retries) as [Heq|Hne]; simpl.
    + exists [PoolExecute sql params; ConsoleError (AttemptFailed attempt (message error))], 1.
      rewrite <- app_assoc. repeat split; auto.
    + remember (((w ++ [PoolExecute sql params]) ++
                   [ConsoleError (AttemptFailed attempt (message error))]) ++
                   [SetTimeout 1000]) as w1 eqn:Hw1.
      destruct (IH (S attempt) w1) as (evs & n & Hw & Hc & Hn & Hlog); [lia | lia |].
      exists (PoolExecute sql params
                :: ConsoleError (AttemptFailed attempt (message error))
                :: SetTimeout 1000 :: evs), (S n).
      rewrite Hw. simpl. repeat split.
      * rewrite Hw1, <- !app_assoc. reflexivity.
      * f_equal. exact Hc.
      * lia.
      * rewrite Hlog.
        destruct (fst (retry_loop pool sql params retries k (S attempt) w1)).
        -- destruct n as [|n]; [lia|]. simpl. rewrite Nat.sub_0_r. reflexivity.
        -- reflexivity.
Qed.

(** X23. The executor writes one log line for each rejected attempt and
    none for an accepted one: with [retries >= 1], after [n] attempts the
    logged attempt numbers are 1, 2, ..., [n] when the executor throws and
    1, ..., [n - 1] when it returns, so a statement accepted at once leaves
    no log line. *)
Theorem executeWithRetry_logs_each_failure
    (pool : Pool) (sql : string) (params : list JsValue) (retries : nat) (w : World) :
  1 <= retries ->
  exists n,
    List.length (calls (since w (snd (executeWithRetry pool sql params retries w)))) = n /\
    1 <= n /\
    logged_attempts (since w (snd (executeWithRetry pool sql params retries w))) =
      seq 1 (match fst (executeWithRetry pool sql params retries w) with
             | Returned _ => n - 1
             | Thrown _ => n
             end).
Proof.
  intros Hpos. unfold executeWithRetry.
  destruct (retry_loop_logs pool sql params retries retries 1 w)
    as (evs & n & Hw & Hc & Hn & Hlog); [lia | lia |].
  exists n. rewrite Hw, since_app. repeat split; assumption.
Qed.

Lemma executeWithRetry_logs_each_failure_witness :
  exists n,
    List.length
      (calls (since [] (snd (executeWithRetry (rejecting_pool parse_error) "SELEC 1" [] 3 []))))
      = n /\
    1 <= n /\
    logged_attempts
      (since [] (snd (executeWithRetry (rejecting_pool parse_error) "SELEC 1" [] 3 []))) =
      seq 1 (match fst (executeWithRetry (rejecting_pool parse_error) "SELEC 1" [] 3 []) with
             | Returned _ => n - 1
             | Thrown _ => n
             end).
Proof.
  apply (executeWithRetry_logs_each_failure (rejecting_pool parse_error) "SELEC 1" [] 3 []).
  lia.
Defined.
